(** * Noteful API: registration and notes handlers

    A shallow embedding of [routes/users.js] (the registration handler) and of
    the notes router (authenticated CRUD on notes), together with the
    properties of the specification that concern them.

    The handlers are Express callbacks over a document store.  A handler is
    embedded as a function from the collections it queries and the parsed
    request to the calls it makes on [res] / [next] and the collections
    afterwards. *)

From stdpp Require Import gmap strings list sorting.
From Stdlib Require Import ZArith NArith Lia.

Local Open Scope nat_scope.

#[local] Set Warnings "-clear-no-such-hyp".

(** ** JavaScript values *)

Module JS.

(** A JavaScript string is a sequence of UTF-16 code units; [length] of the
    list is the string's [.length]. *)
Definition jsstring : Type := list N.

(** The code units of an ASCII literal. *)
Definition lit (s : string) : jsstring :=
  List.map (fun c => N.of_nat (Ascii.nat_of_ascii c)) (String.list_ascii_of_string s).

(** What [JSON.parse] can put in a request body, and [undefined] for a
    property that is absent.  Numbers are restricted to the integers. *)
#[warnings="-register-all"]
Inductive value : Type :=
| VUndefined
| VNull
| VBool (b : bool)
| VNum (z : Z)
| VStr (s : jsstring)
| VArr (l : list value)
| VObj (fields : list (string * value)).

(** ToBoolean: [!v] is [negb (truthy v)]. *)
Definition truthy (v : value) : bool :=
  match v with
  | VUndefined | VNull => false
  | VBool b => b
  | VNum z => negb (z =? 0)%Z
  | VStr s => negb (bool_decide (s = []))
  | VArr _ | VObj _ => true
  end.

(** [typeof v === 'string'] *)
Definition is_string (v : value) : bool :=
  match v with VStr _ => true | _ => false end.

(** ECMAScript WhiteSpace and LineTerminator code points, all of them in
    the basic plane: the characters [String.prototype.trim] strips. *)
Definition is_white_space (c : N) : bool :=
  (bool_decide (c ∈ [9; 10; 11; 12; 13; 32; 160; 5760; 8232; 8233;
                      8239; 8287; 12288; 65279]%N)
   || ((8192 <=? c) && (c <=? 8202)))%N.

Fixpoint trimStart (s : jsstring) : jsstring :=
  match s with
  | c :: s' => if is_white_space c then trimStart s' else s
  | [] => []
  end.

Definition trimEnd (s : jsstring) : jsstring := rev (trimStart (rev s)).

Definition trim (s : jsstring) : jsstring := trimEnd (trimStart s).

(** A string that does not start with whitespace. *)
Definition no_lead (s : jsstring) : Prop :=
  match s with
  | c :: _ => is_white_space c = false
  | [] => True
  end.

(** [field in req.body] *)
Definition has_field (body : gmap string value) (field : string) : bool :=
  bool_decide (is_Some (body !! field)).

(** [req.body[field]] *)
Definition get (body : gmap string value) (field : string) : value :=
  default VUndefined (body !! field).

(** [mongoose.Types.ObjectId.isValid] of the bson library, on the values a
    JSON body can hold: a number, a string of 12 code units, or a string of 24
    hexadecimal digits.  (An object of the body is taken to have no
    [toHexString] property.) *)
Definition is_hex_digit (c : N) : bool :=
  (((48 <=? c) && (c <=? 57)) || ((65 <=? c) && (c <=? 70))
   || ((97 <=? c) && (c <=? 102)))%N.

Definition ObjectId_isValid (v : value) : bool :=
  match v with
  | VNum _ => true
  | VStr s => (length s =? 12) || ((length s =? 24) && forallb is_hex_digit s)
  | _ => false
  end.

(** An id as the store writes it: 24 hexadecimal digits in lower case. *)
Definition is_lower_hex_digit (c : N) : bool :=
  (((48 <=? c) && (c <=? 57)) || ((97 <=? c) && (c <=? 102)))%N.

Definition is_stored_id (s : jsstring) : bool :=
  (length s =? 24) && forallb is_lower_hex_digit s.

End JS.

Import JS.

(** ** User registration: [routes/users.js] *)

Module Users.

(** A document of the [User] collection. *)
Record User : Type := mkUser {
  _id : nat;
  username : jsstring;
  password : jsstring;
  fullname : option jsstring
}.

(** The messages of the errors the handler builds. *)
Inductive message : Type :=
| Missing_in_request_body (field : string)
    (* `Missing '${missingField}' in request body` *)
| Incorrect_field_type (field : string)
    (* `Incorrect field type: ${nonStringFields} must be string` *)
| Need_to_remove_whitespace (field : string)
    (* `Need to remove whitespace in ${nonTrimmedFields}` *)
| Username_already_exist (username : jsstring)
    (* `Username ${username} already exist, please pick a new one` *)
| Must_be_at_least (n : option nat)
| Must_be_at_most (n : option nat).

(** [new Error(message)] with its [status] property set. *)
Record Error : Type := mkError { status : nat; err_message : message }.

(** The object the promise chain is rejected with for a taken username. *)
Record Rejection : Type := mkRejection {
  code : nat;
  reason : string;
  rej_message : message;
  location : string
}.

(** What the handler does with the response. *)
Inductive response : Type :=
| next (err : Error)
    (* next(err): the error goes to the error-handling middleware *)
| status_json_err (code : nat) (err : Rejection)
    (* res.status(err.code).json(err) *)
| status_location_json (code : nat) (user_id : nat) (result : User).
    (* res.status(201).location(`/api/users/${result.id}`).json(result) *)

(** The HTTP status the handler asks for. *)
Definition status_of (r : response) : nat :=
  match r with
  | next err => status err
  | status_json_err c _ => c
  | status_location_json c _ _ => c
  end.

(** [req.body[field].trim()], for a field that holds a string.  On any other
    value the call throws; the handler only gets here with strings (see
    [credentials_are_strings]). *)
Definition trimmed (body : gmap string value) (field : string) : jsstring :=
  match get body field with VStr s => trim s | _ => [] end.

Definition string_of (v : value) : jsstring :=
  match v with VStr s => s | _ => [] end.

Record bounds : Type := mkBounds { min : option nat; max : option nat }.

Definition requiredFields : list string := ["username"; "password"].
Definition stringFields : list string := ["username"; "password"; "fullname"].
Definition explicitlyTrimmedFields : list string := ["username"; "password"].

(** The object literal [sizedFields], in key order. *)
Definition sizedFields : list (string * bounds) :=
  [("username", mkBounds (Some 1) None);
   ("password", mkBounds (Some 8) (Some 72))].

(** [sizedFields[field]] for a key of [sizedFields] *)
Definition sized (field : string) : bounds :=
  default (mkBounds None None) (snd <$> List.find (fun kv => bool_decide (kv.1 = field)) sizedFields).

Section Handler.

(** [User.hashPassword] of the missing [models/user.js]; the promise it
    returns is taken to resolve with the digest. *)
Variable hashPassword : jsstring -> jsstring.

Definition missingField (body : gmap string value) : option string :=
  List.find (fun field => negb (has_field body field)) requiredFields.

Definition nonStringFields (body : gmap string value) : option string :=
  List.find (fun field => has_field body field && negb (is_string (get body field)))
            stringFields.

Definition nonTrimmedFields (body : gmap string value) : option string :=
  List.find (fun field => negb (bool_decide (trimmed body field = string_of (get body field))))
            explicitlyTrimmedFields.

Definition tooSmallFields (body : gmap string value) : option string :=
  List.find (fun field =>
               match min (sized field) with
               | Some m => length (trimmed body field) <? m
               | None => false
               end)
            (List.map fst sizedFields).

(** The comparison is [<] in the source, as here. *)
Definition tooLargeFields (body : gmap string value) : option string :=
  List.find (fun field =>
               match max (sized field) with
               | Some m => length (trimmed body field) <? m
               | None => false
               end)
            (List.map fst sizedFields).

(** The body of [if (tooSmallFields || tooLargeFields) { const err = ... }]:
    the message is bound to a block-scoped constant and the block ends. *)
Definition size_message (body : gmap string value) : option message :=
  match tooSmallFields body, tooLargeFields body with
  | Some f, _ => Some (Must_be_at_least (min (sized f)))
  | None, Some f => Some (Must_be_at_most (min (sized f)))
  | None, None => None
  end.

(** [User.find({username}).count()] *)
Definition count_username (users : list User) (name : jsstring) : nat :=
  length (List.filter (fun u => bool_decide (username u = name)) users).

(** Modelled from the spec: [User.create] of the missing [models/user.js]
    (User: username, hashed password, optional full name).  The document
    is appended to the collection under a fresh id. *)
Definition create (users : list User) (name digest : jsstring)
           (full : option jsstring) : User :=
  mkUser (length users) name digest full.

(** [router.post('/users', ...)]: the response and the collection
    afterwards. *)
Definition post_users (users : list User) (body : gmap string value)
  : response * list User :=
  match missingField body with
  | Some f => (next (mkError 422 (Missing_in_request_body f)), users)
  | None =>
  match nonStringFields body with
  | Some f => (next (mkError 422 (Incorrect_field_type f)), users)
  | None =>
  (* if (fullname) { fullname.trim(); }: the trimmed string is dropped *)
  match nonTrimmedFields body with
  | Some f => (next (mkError 422 (Need_to_remove_whitespace f)), users)
  | None =>
    (* if (tooSmallFields || tooLargeFields) { const err = ... }: no call to
       next and no return; the handler goes on *)
    let _ := size_message body in
    let username := string_of (get body "username") in
    let password := string_of (get body "password") in
    let fullname := match get body "fullname" with VStr s => Some s | _ => None end in
    if 0 <? count_username users username then
      let err := mkRejection 422 "ValidationError"
                             (Username_already_exist username) "username" in
      (* .catch: err.reason === 'ValidationError' *)
      (status_json_err (code err) err, users)
    else
      let digest := hashPassword password in
      let result := create users username digest fullname in
      (status_location_json 201 (_id result) result, users ++ [result])
  end end end.

End Handler.

(** A stand-in for bcrypt, to run the handler on examples: the digest is the
    password behind a version prefix. *)
Definition prefix_hash (p : jsstring) : jsstring := lit "$2a$10$" ++ p.

End Users.

(** ** The notes router *)

Module Notes.

(** Documents of the three collections.  An id is the hexadecimal string of
    the ObjectId; the fields of a note hold what the handler passed to the
    store. *)
Record Note : Type := mkNote {
  note_id : jsstring;
  title : value;
  content : value;
  folderId : value;
  tags : value;
  userId : jsstring
}.

Record Folder : Type := mkFolder {
  folder_id : jsstring;
  folder_name : jsstring;
  folder_userId : jsstring
}.

Record Tag : Type := mkTag {
  tag_id : jsstring;
  tag_name : jsstring;
  tag_userId : jsstring
}.

Record store : Type := mkStore {
  Note_ : list Note;
  Folder_ : list Folder;
  Tag_ : list Tag
}.

Inductive message : Type :=
| The_id_is_not_valid              (* 'The `id` is not valid' *)
| Missing_title_in_request_body    (* 'Missing `title` in request body' *)
| The_folderId_is_not_valid        (* 'The `folderId` is not valid' *)
| The_tags_id_is_not_valid         (* 'The tags `id` is not valid' *)
| The_folder_is_not_valid          (* 'The folder is not valid' *)
| The_tag_is_not_valid.            (* 'The tag is not valid' *)

(** An error object: [new Error(message)] with [err.status] set by the
    handler, or an error of the runtime or of the store, which carries no
    status. *)
Inductive Error : Type :=
| mkError (status : nat) (m : message)
| TypeError (what : string)
| CastError.

(** The errors of the checks a handler makes on the request itself, before
    any query; the two others are made by [.catch] of a rejected check. *)
Definition of_request_check (m : message) : bool :=
  match m with
  | The_folder_is_not_valid | The_tag_is_not_valid => false
  | _ => true
  end.

(** What a promise of the validation helpers is rejected with. *)
Inductive rejection : Type :=
| InvalidFolder
| InvalidTag
| QueryRefused.   (* the store refuses the query: a CastError *)

Inductive promise : Type :=
| resolved
| rejected (r : rejection).

(** [res.json(result)] after [.populate('tags')]: the note, with the tag
    documents its [tags] refer to. *)
Record populated : Type := mkPopulated { doc : Note; populated_tags : list Tag }.

(** The calls a handler makes on [res] and [next], in order.  [throws] is an
    exception leaving the handler, which Express hands to [next]. *)
Inductive call : Type :=
| next_err (err : Error)                      (* next(err) *)
| next_                                       (* next() *)
| json (result : populated)                   (* res.json(result) *)
| location_status_json (id : jsstring) (code : nat) (result : Note)
      (* res.location(`${req.originalUrl}/${result.id}`).status(201).json(result) *)
| sendStatus (code : nat)                     (* res.sendStatus(204) *)
| throws (err : Error).

(** The status of the response a call produces, where the handler fixes it:
    [err.status] for an error passed on, the code given to [res], 200 for a
    plain [res.json]. *)
Definition status_of (c : call) : option nat :=
  match c with
  | next_err (mkError st _) => Some st
  | next_err (TypeError _) | next_err CastError => None
  | next_ => None
  | json _ => Some 200
  | location_status_json _ st _ => Some st
  | sendStatus st => Some st
  | throws _ => None
  end.

(** The response is settled by the first call; a later [next(err)] finds the
    headers sent. *)
Definition responds_with (calls : list call) (st : nat) : Prop :=
  ∃ c rest, calls = c :: rest ∧ status_of c = Some st.

(** A query condition [_id: v]: the value is the document's id, that is, the
    string of it.  The store casts the value before it compares: an id in
    another spelling names the same document, and a value that cannot be cast
    makes the query fail.  Neither is followed here, so the condition is that
    of the store for the values that are ids as the store writes them
    ([is_stored_id]); no other value matches a document. *)
Definition id_eq (v : value) (id : jsstring) : bool :=
  match v with
  | VStr s => bool_decide (s = id)
  | _ => false
  end.

(** [.populate('tags')] *)
Definition populate (db : store) (n : Note) : populated :=
  mkPopulated n
    (match tags n with
     | VArr l => flat_map (fun v => List.filter (fun t => id_eq v (tag_id t)) (Tag_ db)) l
     | _ => []
     end).

(** [Folder.findOne({_id: folderId, userId})] *)
Definition Folder_findOne (db : store) (folderId : value) (userId : jsstring) : option Folder :=
  List.find (fun f => id_eq folderId (folder_id f) && bool_decide (folder_userId f = userId))
            (Folder_ db).

(** [Tag.find({ $and: [{ _id: { $in: tags }, userId }] })] *)
Definition Tag_find (db : store) (tags : list value) (userId : jsstring) : list Tag :=
  List.filter (fun t => existsb (fun v => id_eq v (tag_id t)) tags
                        && bool_decide (tag_userId t = userId))
              (Tag_ db).

(** [Note.findOne({_id: id, userId})] *)
Definition Note_findOne (db : store) (id userId : jsstring) : option Note :=
  List.find (fun n => bool_decide (note_id n = id) && bool_decide (Notes.userId n = userId))
            (Note_ db).

(** Removes the first document the condition holds of. *)
Fixpoint remove_first {A : Type} (f : A → bool) (l : list A) : list A :=
  match l with
  | [] => []
  | x :: l' => if f x then l' else x :: remove_first f l'
  end.

(** [Note.findOneAndRemove({_id: id, userId})] *)
Definition Note_findOneAndRemove (db : store) (id userId : jsstring) : option Note * store :=
  let cond n := bool_decide (note_id n = id) && bool_decide (Notes.userId n = userId) in
  (List.find cond (Note_ db),
   mkStore (remove_first cond (Note_ db)) (Folder_ db) (Tag_ db)).

(** No note of the collection has this id and this owner: the note does not
    exist, or it is someone else's. *)
Definition not_owned (db : store) (u id : jsstring) : Prop :=
  ∀ n, n ∈ Note_ db → note_id n = id → Notes.userId n ≠ u.

(** The object literal [{ title, content, folderId, tags, userId }]. *)
Record fields : Type := mkFields {
  f_title : value;
  f_content : value;
  f_folderId : value;
  f_tags : value;
  f_userId : jsstring
}.

(** Modelled from the spec: [Note.create] of the missing [models/note.js]
    (Note: title, optional content, optional folder reference, set of tag
    references, owning user).  The document is stored as given, under the id
    generated for it. *)
Definition Note_create (db : store) (newId : jsstring) (newNote : fields) : Note * store :=
  let result := mkNote newId (f_title newNote) (f_content newNote) (f_folderId newNote)
                       (f_tags newNote) (f_userId newNote) in
  (result, mkStore (Note_ db ++ [result]) (Folder_ db) (Tag_ db)).

(** Sets the five fields of the update on a document.  A field the update
    holds as [undefined] is handed to the store as such; what the driver
    writes for it is outside the source. *)
Definition set_fields (updateNote : fields) (n : Note) : Note :=
  mkNote (note_id n) (f_title updateNote) (f_content updateNote)
         (f_folderId updateNote) (f_tags updateNote) (f_userId updateNote).

Fixpoint update_first {A : Type} (f : A → bool) (g : A → A) (l : list A) : list A :=
  match l with
  | [] => []
  | x :: l' => if f x then g x :: l' else x :: update_first f g l'
  end.

(** [Note.findByIdAndUpdate(id, updateNote, { new: true })]: the condition is
    the id alone; the result is the document after the update. *)
Definition Note_findByIdAndUpdate (db : store) (id : jsstring) (updateNote : fields)
  : option Note * store :=
  let cond n := bool_decide (note_id n = id) in
  (set_fields updateNote <$> List.find cond (Note_ db),
   mkStore (update_first cond (set_fields updateNote) (Note_ db)) (Folder_ db) (Tag_ db)).

(** [validateFolderId(folderId, userId)].  For a truthy folderId that is no
    id as the store writes it, the query of the source can fail in the store,
    which rejects the promise with the store's error; here such a value finds
    no folder. *)
Definition validateFolderId (db : store) (folderId : value) (userId : jsstring) : promise :=
  if negb (truthy folderId) then resolved
  else match Folder_findOne db folderId userId with
       | Some _ => resolved
       | None => rejected InvalidFolder
       end.

(** [validateTagIds(tags = [], userId)]; [None] when reading [tags.length]
    throws.  A value with no [length] property has [!tags.length] true.  The
    handlers call this with an array or a falsy value only: on a non-empty
    string or an object [forEach] and [filter] have thrown before, and what
    the store would answer to such an operand of [$in] is not followed here
    beyond the promise being rejected.  An element of the array that is no id
    as the store writes it can make the query fail in the store in the same
    way; here such an element finds no tag. *)
Definition validateTagIds (db : store) (tags : value) (userId : jsstring) : option promise :=
  match tags with
  | VUndefined => Some resolved                     (* the default [] *)
  | VNull => None
  | VArr l =>
      if length l =? 0 then Some resolved
      else if negb (length l =? length (Tag_find db l userId))
           then Some (rejected InvalidTag)
           else Some resolved
  | VStr s => if length s =? 0 then Some resolved else Some (rejected QueryRefused)
  | VObj fs =>
      match List.find (fun kv => bool_decide (kv.1 = "length")) fs with
      | Some (_, len) => if truthy len then Some (rejected QueryRefused) else Some resolved
      | None => Some resolved
      end
  | VBool _ | VNum _ => Some resolved
  end.

(** [Promise.all([valFolderIdProm, valTagIdsProm])]: rejected with the reason
    of the promise that is rejected first; [tagFirst] says that the tag query
    is answered before the folder query. *)
Definition Promise_all (valFolderIdProm valTagIdsProm : promise) (tagFirst : bool) : promise :=
  match valFolderIdProm, valTagIdsProm with
  | resolved, resolved => resolved
  | rejected r, resolved => rejected r
  | resolved, rejected r => rejected r
  | rejected r1, rejected r2 => if tagFirst then rejected r2 else rejected r1
  end.

(** The [.catch] of the create and update chains. *)
Definition catch (r : rejection) : call :=
  match r with
  | InvalidFolder => next_err (mkError 400 The_folder_is_not_valid)
  | InvalidTag => next_err (mkError 400 The_tag_is_not_valid)
  | QueryRefused => next_err CastError
  end.

(** The destructuring default [tags = []]. *)
Definition tags_of (body : gmap string value) : value :=
  match get body "tags" with
  | VUndefined => VArr []
  | v => v
  end.

Section Router.

(** [mongoose.Types.ObjectId.isValid] *)
Variable isValid : value → bool.

(** [router.get('/:id', ...)] *)
Definition get_id (db : store) (userId id : jsstring) : list call * store :=
  if negb (isValid (VStr id)) then
    ([next_err (mkError 400 The_id_is_not_valid)], db)
  else
    match Note_findOne db id userId with
    | Some result => ([json (populate db result)], db)
    | None => ([next_], db)
    end.

(** [router.delete('/:id', ...)] *)
Definition delete_id (db : store) (userId id : jsstring) : list call * store :=
  if negb (isValid (VStr id)) then
    ([next_err (mkError 400 The_id_is_not_valid)], db)
  else
    match Note_findOneAndRemove db id userId with
    | (Some _, db') => ([sendStatus 204], db')
    | (None, db') => ([next_], db')
    end.

(** [if (tags) { tags.forEach(tag => { if (!isValid(tag)) { ...; return
    next(err); } }) }] of the create handler: one [next(err)] for each element
    that is not valid, the [return] leaving the callback only.  [None] when
    [tags] is truthy and has no [forEach]. *)
Definition forEach_tag (tags : value) : option (list call) :=
  match tags with
  | VArr l =>
      Some (List.map (fun _ => next_err (mkError 400 The_tags_id_is_not_valid))
                     (List.filter (fun tag => negb (isValid tag)) l))
  | v => if truthy v then None else Some []
  end.

(** [router.post('/', ...)]; [newId] is the id the store gives the new
    document. *)
Definition post (db : store) (userId : jsstring) (body : gmap string value)
           (newId : jsstring) (tagFirst : bool) : list call * store :=
  let title := get body "title" in
  let content := get body "content" in
  let folderId := get body "folderId" in
  let tags := tags_of body in
  if negb (truthy title) then
    ([next_err (mkError 400 Missing_title_in_request_body)], db)
  else if truthy folderId && negb (isValid folderId) then
    ([next_err (mkError 400 The_folderId_is_not_valid)], db)
  else
    match forEach_tag tags with
    | None => ([throws (TypeError "tags.forEach is not a function")], db)
    | Some calls =>
        let newNote := mkFields title content folderId tags userId in
        let valFolderIdProm := validateFolderId db folderId userId in
        match validateTagIds db tags userId with
        | None => (calls ++ [throws (TypeError "Cannot read property 'length' of null")], db)
        | Some valTagIdsProm =>
            match Promise_all valFolderIdProm valTagIdsProm tagFirst with
            | resolved =>
                let '(result, db') := Note_create db newId newNote in
                (calls ++ [location_status_json (note_id result) 201 result], db')
            | rejected err => (calls ++ [catch err], db)
            end
        end
    end.

(** [if (tags) { const badIds = tags.filter(...); if (badIds.length) ... }] of
    the update handler: [Some true] when some element is not valid, [None]
    when [tags] is truthy and has no [filter]. *)
Definition badIds (tags : value) : option bool :=
  match tags with
  | VArr l => Some (negb (length (List.filter (fun tag => negb (isValid tag)) l) =? 0))
  | v => if truthy v then None else Some false
  end.

(** [router.put('/:id', ...)] *)
Definition put (db : store) (userId id : jsstring) (body : gmap string value)
           (tagFirst : bool) : list call * store :=
  let title := get body "title" in
  let content := get body "content" in
  let folderId := get body "folderId" in
  let tags := tags_of body in
  if negb (isValid (VStr id)) then
    ([next_err (mkError 400 The_id_is_not_valid)], db)
  else if match title with VStr [] => true | _ => false end then
    ([next_err (mkError 400 Missing_title_in_request_body)], db)
  else if truthy folderId && negb (isValid folderId) then
    ([next_err (mkError 400 The_folderId_is_not_valid)], db)
  else
    match badIds tags with
    | None => ([throws (TypeError "tags.filter is not a function")], db)
    | Some true => ([next_err (mkError 400 The_tags_id_is_not_valid)], db)
    | Some false =>
        let updateNote := mkFields title content folderId tags userId in
        let valFolderIdProm := validateFolderId db folderId userId in
        match validateTagIds db tags userId with
        | None => ([throws (TypeError "Cannot read property 'length' of null")], db)
        | Some valTagIdsProm =>
            match Promise_all valFolderIdProm valTagIdsProm tagFirst with
            | resolved =>
                match Note_findByIdAndUpdate db id updateNote with
                | (Some result, db') => ([json (populate db' result)], db')
                | (None, db') => ([next_], db')
                end
            | rejected err => ([catch err], db)
            end
        end
    end.

End Router.

(** *** Listing: [router.get('/', ...)] *)

(** What the listing handler does: [res.json(results)], or an exception
    leaving the handler when the search term is no regular expression. *)
Inductive listing : Type :=
| json_results (results : list populated)      (* res.json(results) *)
| throws_SyntaxError.

(** A condition [folderId: v] on a document: the field holds the id [v]. *)
Definition field_is (v : value) (field : value) : bool :=
  match field with
  | VStr s => id_eq v s
  | _ => false
  end.

(** A condition [tags: v] on a document: an element of the array is [v]. *)
Definition array_has (v : value) (field : value) : bool :=
  match field with
  | VArr l => existsb (field_is v) l
  | _ => false
  end.

Section Listing.

(** [new RegExp(searchTerm, 'i')] as the test the store makes with it on a
    field of a document; [None] when the constructor throws. *)
Variable RegExp_i : value → option (value → bool).

(** The [updatedAt] timestamp the store keeps for a document (the schema of
    [models/note.js] is missing). *)
Variable updatedAt : Note → nat.

(** [{ updatedAt: 'desc' }] *)
Definition updatedAt_desc (n1 n2 : Note) : Prop := updatedAt n2 ≤ updatedAt n1.

#[export] Instance updatedAt_desc_dec : RelDecision updatedAt_desc.
Proof. intros n1 n2. unfold updatedAt_desc. apply _. Defined.

(** The [filter] object the handler builds, as a test on a document; [None]
    when building it throws. *)
Definition list_filter (userId : jsstring) (query : gmap string value)
  : option (Note → bool) :=
  let searchTerm := get query "searchTerm" in
  let folderId := get query "folderId" in
  let tagId := get query "tagId" in
  let by_user (n : Note) := bool_decide (Notes.userId n = userId) in
  let by_term : option (Note → bool) :=
    if truthy searchTerm then
      match RegExp_i searchTerm with
      | Some re => Some (λ n, re (title n) || re (content n))
      | None => None
      end
    else Some (λ _, true) in
  let by_folder (n : Note) :=
    if truthy folderId then field_is folderId (Notes.folderId n) else true in
  let by_tag (n : Note) :=
    if truthy tagId then array_has tagId (tags n) else true in
  match by_term with
  | Some term => Some (λ n, by_user n && term n && by_folder n && by_tag n)
  | None => None
  end.

(** [router.get('/', ...)]: [Note.find(filter).populate('tags').sort({
    updatedAt: 'desc' })].  Documents with the same timestamp come in the
    order the merge sort leaves them in; the store does not fix one.  A
    folderId or tagId of the query that is no id as the store writes it is
    read by the store in its own way (an object as an operator) or refused,
    the error going to [next]; here it matches no document. *)
Definition get_all (db : store) (userId : jsstring) (query : gmap string value)
  : listing * store :=
  match list_filter userId query with
  | None => (throws_SyntaxError, db)
  | Some filter =>
      (json_results
         (populate db <$> merge_sort updatedAt_desc (List.filter filter (Note_ db))),
       db)
  end.

End Listing.

(** The note the create handler stores for a body. *)
Definition note_of (body : gmap string value) (newId u : jsstring) : Note :=
  mkNote newId (get body "title") (get body "content") (get body "folderId")
         (tags_of body) u.

(** The update the update handler makes for a body. *)
Definition update_of (body : gmap string value) (u : jsstring) : fields :=
  mkFields (get body "title") (get body "content") (get body "folderId")
           (tags_of body) u.

(** The 201 answer of the create handler, and [res.json] of a note. *)
Definition is_created (c : call) : bool :=
  match c with location_status_json _ _ _ => true | _ => false end.

Definition is_json (c : call) : bool :=
  match c with json _ => true | _ => false end.

(** The folder and the tags a note refers to belong to the owner of the
    note. *)
Definition references_owned (db : store) (n : Note) : Prop :=
  (truthy (folderId n) = true →
   ∃ f, f ∈ Folder_ db ∧ folderId n = VStr (folder_id f)
        ∧ folder_userId f = userId n) ∧
  (∀ l v, tags n = VArr l → v ∈ l →
          ∃ t, t ∈ Tag_ db ∧ v = VStr (tag_id t) ∧ tag_userId t = userId n).

Definition consistent (db : store) : Prop :=
  ∀ n, n ∈ Note_ db → references_owned db n.

End Notes.

(** ** Sample data *)

Module Examples.

Import Users Notes.

Definition bob : User := mkUser 0 (lit "bob") (prefix_hash (lit "password1")) None.

Definition short_password : gmap string value :=
  {[ "username" := VStr (lit "bob"); "password" := VStr (lit "abc") ]}.

Definition long_password : gmap string value :=
  {[ "username" := VStr (lit "bob"); "password" := VStr (replicate 73 97%N) ]}.

Definition only_username : gmap string value :=
  {[ "username" := VStr (lit "bob") ]}.

Definition untrimmed_username : gmap string value :=
  {[ "username" := VStr (lit " bob"); "password" := VStr (lit "password1") ]}.

Definition registration (name : string) : gmap string value :=
  {[ "username" := VStr (lit name); "password" := VStr (lit "password1") ]}.

(** Two users of the notes router, and what they own. *)
Definition alice : jsstring := lit "aaaaaaaaaaaaaaaaaaaaaaaa".
Definition mallory : jsstring := lit "bbbbbbbbbbbbbbbbbbbbbbbb".

Definition note1 : jsstring := lit "111111111111111111111111".
Definition note2 : jsstring := lit "222222222222222222222222".
Definition folder1 : jsstring := lit "f00000000000000000000001".
Definition folder2 : jsstring := lit "f00000000000000000000002".
Definition tag1 : jsstring := lit "c00000000000000000000001".
Definition tag2 : jsstring := lit "c00000000000000000000002".

Definition db : store :=
  mkStore
    [mkNote note1 (VStr (lit "groceries")) (VStr (lit "milk")) (VStr folder1)
            (VArr [VStr tag1]) alice]
    [mkFolder folder1 (lit "home") alice; mkFolder folder2 (lit "plans") mallory]
    [mkTag tag1 (lit "todo") alice; mkTag tag2 (lit "secret") mallory].

Definition empty_db : store := mkStore [] [] [].

Definition note3 : jsstring := lit "333333333333333333333333".

(** Request bodies for the notes router. *)
Definition null_folder : gmap string value :=
  {[ "title" := VStr (lit "t"); "folderId" := VNull ]}.

Definition malformed_tag : gmap string value :=
  {[ "title" := VStr (lit "t"); "tags" := VArr [VStr tag1; VStr (lit "zzz")] ]}.

Definition foreign_folder_string_tags : gmap string value :=
  {[ "title" := VStr (lit "t"); "folderId" := VStr folder2; "tags" := VStr (lit "x") ]}.

Definition foreign_folder : gmap string value :=
  {[ "title" := VStr (lit "t"); "folderId" := VStr folder2 ]}.

Definition repeated_tag : gmap string value :=
  {[ "title" := VStr (lit "t"); "tags" := VArr [VStr tag1; VStr tag1] ]}.

Definition retitle : gmap string value :=
  {[ "title" := VStr (lit "taken over") ]}.

Definition only_content : gmap string value :=
  {[ "content" := VStr (lit "eggs") ]}.

(** A store with notes of both users, a stand-in for the timestamps (the
    length of the title) and one for the regular expressions (the term is
    looked for at the start of the field; ["("] does not compile). *)
Definition db2 : store :=
  mkStore
    [mkNote note1 (VStr (lit "groceries")) (VStr (lit "milk")) (VStr folder1)
            (VArr [VStr tag1]) alice;
     mkNote note2 (VStr (lit "plans")) (VStr (lit "secret")) (VStr folder2)
            (VArr [VStr tag2]) mallory;
     mkNote note3 (VStr (lit "gardening tips")) (VStr (lit "water")) VUndefined
            (VArr []) alice]
    [mkFolder folder1 (lit "home") alice; mkFolder folder2 (lit "plans") mallory]
    [mkTag tag1 (lit "todo") alice; mkTag tag2 (lit "secret") mallory].

Definition title_length (n : Note) : nat :=
  match title n with VStr s => length s | _ => 0 end.

Definition starts_with (term : value) : option (value → bool) :=
  match term with
  | VStr [40%N] => None
  | VStr t =>
      Some (λ field, match field with
                     | VStr s => bool_decide (t `prefix_of` s)
                     | _ => false
                     end)
  | _ => None
  end.

Definition note4 : jsstring := lit "444444444444444444444444".

Definition new_note : gmap string value :=
  {[ "title" := VStr (lit "recipe"); "content" := VStr (lit "soup");
     "folderId" := VStr folder1; "tags" := VArr [VStr tag1];
     "userId" := VStr mallory ]}.

End Examples.

(** * Properties of the registration handler *)

Section Registration.

Import Users.

Example trim_example : trim (lit "  foo bar ") = lit "foo bar".
Proof. reflexivity. Qed.

Example trim_nbsp : trim [160; 97; 8195; 10]%N = [97]%N.
Proof. reflexivity. Qed.

(** *** The checks, read off the handler *)

Lemma has_field_true (body : gmap string value) (field : string) :
  has_field body field = true ↔ is_Some (body !! field).
Proof. unfold has_field. by rewrite bool_decide_eq_true. Qed.

Lemma missingField_None (body : gmap string value) :
  missingField body = None ↔
  is_Some (body !! "username") ∧ is_Some (body !! "password").
Proof.
  unfold missingField, requiredFields; simpl.
  rewrite <- !has_field_true.
  destruct (has_field body "username"), (has_field body "password"); simpl;
    naive_solver.
Qed.

Lemma present_field_is_string (body : gmap string value) (field : string) (v : value) :
  body !! field = Some v →
  has_field body field && negb (is_string (get body field)) = false →
  ∃ s, v = VStr s.
Proof.
  intros Hv. unfold has_field, get. rewrite Hv. simpl.
  simpl.
  destruct v; simpl; try discriminate. eauto.
Qed.

(** Past the presence and type checks both credentials are strings, so the
    [trim()] calls that follow do not throw. *)
Lemma credentials_are_strings (body : gmap string value) :
  missingField body = None → nonStringFields body = None →
  ∃ u p, body !! "username" = Some (VStr u) ∧ body !! "password" = Some (VStr p).
Proof.
  intros [[vu Hu] [vp Hp]]%missingField_None Hns.
  unfold nonStringFields, stringFields in Hns.
  destruct (present_field_is_string body "username" vu Hu) as [u ->].
  { apply (find_none _ _ Hns). simpl; tauto. }
  destruct (present_field_is_string body "password" vp Hp) as [p ->].
  { apply (find_none _ _ Hns). simpl; tauto. }
  eauto.
Qed.

Lemma nonTrimmedFields_None (body : gmap string value) (u p : jsstring) :
  body !! "username" = Some (VStr u) → body !! "password" = Some (VStr p) →
  nonTrimmedFields body = None ↔ trim u = u ∧ trim p = p.
Proof.
  intros Hu Hp. unfold nonTrimmedFields, explicitlyTrimmedFields, trimmed, get.
  simpl. rewrite Hu, Hp. simpl.
  destruct (decide (trim u = u)); destruct (decide (trim p = p));
    rewrite ?bool_decide_eq_true_2, ?bool_decide_eq_false_2 by done; simpl;
    naive_solver.
Qed.


(** The presence, type and trim checks pass exactly on these bodies. *)
Lemma field_checks_pass (body : gmap string value) (u p : jsstring) :
  body !! "username" = Some (VStr u) → body !! "password" = Some (VStr p) →
  (body !! "fullname" = None ∨ ∃ f, body !! "fullname" = Some (VStr f)) →
  trim u = u → trim p = p →
  missingField body = None ∧ nonStringFields body = None ∧
  nonTrimmedFields body = None.
Proof.
  intros Hu Hp Hf Tu Tp. split; [|split].
  - apply missingField_None. rewrite Hu, Hp. eauto.
  - unfold nonStringFields, stringFields, has_field, get. simpl.
    rewrite Hu, Hp. simpl.
    destruct Hf as [-> | [f ->]]; reflexivity.
  - by apply (nonTrimmedFields_None body u p).
Qed.

(** Once the three checks pass, the rest of the handler is the uniqueness
    test and the insertion; the length bounds play no part in it. *)
Lemma post_users_checked (hashPassword : jsstring → jsstring)
      (users : list User) (body : gmap string value) (u p : jsstring) :
  body !! "username" = Some (VStr u) → body !! "password" = Some (VStr p) →
  missingField body = None → nonStringFields body = None →
  nonTrimmedFields body = None →
  post_users hashPassword users body =
    if 0 <? count_username users u then
      (status_json_err 422
         (mkRejection 422 "ValidationError" (Username_already_exist u) "username"),
       users)
    else
      let result :=
        create users u (hashPassword p)
               (match get body "fullname" with VStr s => Some s | _ => None end) in
      (status_location_json 201 (_id result) result, users ++ [result]).
Proof.
  intros Hu Hp H1 H2 H3. unfold post_users. rewrite H1, H2, H3.
  unfold get. rewrite Hu, Hp. reflexivity.
Qed.

(** Every exit of the handler other than the insertion leaves the collection
    as it was. *)
Lemma post_users_store (hashPassword : jsstring → jsstring)
      (users : list User) (body : gmap string value) :
  (post_users hashPassword users body).2 = users ∨
  ∃ result, post_users hashPassword users body
            = (status_location_json 201 (_id result) result, users ++ [result])
            ∧ count_username users (username result) = 0
            ∧ password result = hashPassword (string_of (get body "password")).
Proof.
  unfold post_users.
  destruct (missingField body); [by left|].
  destruct (nonStringFields body); [by left|].
  destruct (nonTrimmedFields body); [by left|].
  cbv zeta. destruct (0 <? _) eqn:Hc; [by left|].
  right. eexists. split; [reflexivity|]. simpl. split; [|reflexivity].
  apply Nat.ltb_ge in Hc. lia.
Qed.

Lemma count_username_0 (users : list User) (name : jsstring) :
  count_username users name = 0 ↔ name ∉ username <$> users.
Proof.
  unfold count_username. induction users as [|x users IH]; simpl.
  - split; [intros _; apply not_elem_of_nil | done].
  - rewrite not_elem_of_cons. case_bool_decide; simpl.
    + split; [discriminate | intros [? _]; congruence].
    + rewrite IH. naive_solver.
Qed.

(** The handler alone keeps usernames pairwise distinct: it inserts only
    after counting no document with the submitted username. *)
Lemma post_users_unique (hashPassword : jsstring → jsstring)
      (users : list User) (body : gmap string value) :
  NoDup (username <$> users) →
  NoDup (username <$> (post_users hashPassword users body).2).
Proof.
  intros Hnd.
  destruct (post_users_store hashPassword users body) as [-> | (r & -> & Hc & _)];
    [done|].
  simpl. rewrite fmap_app. simpl. apply NoDup_app. split; [done|]. split.
  - intros x Hx [->|[]%elem_of_nil]%elem_of_cons.
    by apply count_username_0 in Hc.
  - apply NoDup_singleton.
Qed.

(** C8.  A registration whose username or password is a string with leading
    or trailing whitespace (it differs from its trimmed form) is rejected with
    status 422 and the collection is left as it was. *)
Theorem untrimmed_credential_rejected
        (hashPassword : jsstring → jsstring) (users : list User)
        (body : gmap string value) (field : string) (s : jsstring) :
  field = "username" ∨ field = "password" →
  body !! field = Some (VStr s) →
  trim s ≠ s →
  ∃ err, post_users hashPassword users body = (next err, users) ∧ status err = 422.
Proof.
  intros Hfield Hs Hne. unfold post_users.
  destruct (missingField body); [eauto|].
  destruct (nonStringFields body); [eauto|].
  destruct (nonTrimmedFields body) eqn:Hnt; [eauto|].
  exfalso. unfold nonTrimmedFields in Hnt.
  assert (In field explicitlyTrimmedFields) as Hin
      by (unfold explicitlyTrimmedFields; simpl; destruct Hfield; auto).
  pose proof (find_none _ _ Hnt field Hin) as Hf. simpl in Hf.
  unfold trimmed, get in Hf. rewrite Hs in Hf. simpl in Hf.
  apply negb_false_iff, bool_decide_eq_true in Hf. done.
Qed.

Lemma untrimmed_credential_rejected_witness :
  ∃ err, post_users prefix_hash [] Examples.untrimmed_username = (next err, [])
         ∧ status err = 422.
Proof.
  apply (untrimmed_credential_rejected prefix_hash [] Examples.untrimmed_username
           "username" (lit " bob")).
  - left; reflexivity.
  - reflexivity.
  - vm_compute; discriminate.
Defined.

(** C2 (the code departs from it).  A password of 3 characters and one of 73
    are both registered with status 201: the length bounds are computed and
    then dropped. *)
Theorem short_and_long_passwords_are_registered (hashPassword : jsstring → jsstring) :
  length (trim (lit "abc")) < 8 ∧
  post_users hashPassword [] Examples.short_password =
    (status_location_json 201 0 (mkUser 0 (lit "bob") (hashPassword (lit "abc")) None),
     [mkUser 0 (lit "bob") (hashPassword (lit "abc")) None]) ∧
  72 < length (trim (replicate 73 97%N)) ∧
  post_users hashPassword [] Examples.long_password =
    (status_location_json 201 0
       (mkUser 0 (lit "bob") (hashPassword (replicate 73 97%N)) None),
     [mkUser 0 (lit "bob") (hashPassword (replicate 73 97%N)) None]).
Proof.
  split; [vm_compute; lia|]. split; [reflexivity|].
  split; [vm_compute; lia|]. reflexivity.
Qed.

(** C7.  On a successful registration the password stored with the new user
    is the digest [hashPassword] returns for the submitted password; it is
    the submitted password only where the hash function returns its input. *)
Theorem persisted_password_is_digest
        (hashPassword : jsstring → jsstring) (users users' : list User)
        (body : gmap string value) (c i : nat) (result : User) :
  post_users hashPassword users body = (status_location_json c i result, users') →
  ∃ p, body !! "password" = Some (VStr p) ∧
       users' = users ++ [result] ∧
       password result = hashPassword p ∧
       (hashPassword p ≠ p → password result ≠ p).
Proof.
  intros H. unfold post_users in H.
  destruct (missingField body) eqn:H1; [discriminate|].
  destruct (nonStringFields body) eqn:H2; [discriminate|].
  destruct (nonTrimmedFields body) eqn:H3; [discriminate|].
  destruct (credentials_are_strings body H1 H2) as (u & p & Hu & Hp).
  cbv zeta in H. destruct (0 <? _); [discriminate|].
  injection H as <- <- <- <-.
  exists p. unfold get. rewrite Hp. simpl. repeat split; auto.
Qed.

Lemma persisted_password_is_digest_witness :
  ∃ p, Examples.registration "alice" !! "password" = Some (VStr p) ∧
       [Examples.bob; mkUser 1 (lit "alice") (prefix_hash (lit "password1")) None]
         = [Examples.bob] ++ [mkUser 1 (lit "alice") (prefix_hash (lit "password1")) None] ∧
       password (mkUser 1 (lit "alice") (prefix_hash (lit "password1")) None)
         = prefix_hash p ∧
       (prefix_hash p ≠ p →
        password (mkUser 1 (lit "alice") (prefix_hash (lit "password1")) None) ≠ p).
Proof.
  apply (persisted_password_is_digest prefix_hash [Examples.bob] _
           (Examples.registration "alice") 201 1).
  reflexivity.
Defined.

(** The field a check reports is one it fails on. *)
Lemma missingField_Some (body : gmap string value) (f : string) :
  missingField body = Some f → f ∈ requiredFields ∧ body !! f = None.
Proof.
  unfold missingField. intros [Hin Hf]%find_some.
  split; [by apply list_elem_of_In|].
  apply negb_true_iff in Hf. unfold has_field in Hf.
  apply bool_decide_eq_false in Hf. destruct (body !! f); [|done].
  exfalso. apply Hf. eauto.
Qed.

Lemma nonStringFields_Some (body : gmap string value) (f : string) :
  nonStringFields body = Some f →
  f ∈ stringFields ∧ ∃ w, body !! f = Some w ∧ is_string w = false.
Proof.
  unfold nonStringFields. intros [Hin Hc]%find_some.
  split; [by apply list_elem_of_In|].
  apply andb_true_iff in Hc as [Hc1 Hc2].
  apply has_field_true in Hc1 as [w Hw]. exists w. split; [done|].
  unfold get in Hc2. rewrite Hw in Hc2. simpl in Hc2.
  by apply negb_true_iff in Hc2.
Qed.

Lemma nonTrimmedFields_Some (body : gmap string value) (f : string) :
  missingField body = None → nonStringFields body = None →
  nonTrimmedFields body = Some f →
  f ∈ explicitlyTrimmedFields ∧ ∃ s, body !! f = Some (VStr s) ∧ trim s ≠ s.
Proof.
  intros H1 H2. unfold nonTrimmedFields. intros [Hin Hc]%find_some.
  split; [by apply list_elem_of_In|].
  destruct (credentials_are_strings body H1 H2) as (u & p & Hu & Hp).
  apply negb_true_iff, bool_decide_eq_false in Hc.
  unfold trimmed, get in Hc. simpl in Hin.
  destruct Hin as [<- | [<- | []]].
  - rewrite Hu in Hc. simpl in Hc. eauto.
  - rewrite Hp in Hc. simpl in Hc. eauto.
Qed.

Lemma fullname_is_string (body : gmap string value) :
  nonStringFields body = None →
  body !! "fullname" = None ∨ ∃ f, body !! "fullname" = Some (VStr f).
Proof.
  intros H2. destruct (body !! "fullname") as [v|] eqn:Hv; [right | by left].
  destruct (present_field_is_string body "fullname" v Hv) as [f ->]; [|eauto].
  apply (find_none _ _ H2). unfold stringFields. simpl. tauto.
Qed.

(** C6, as amended.  A registration whose username is already in the
    collection is rejected with status 422 and no user is created, so the
    usernames stay pairwise distinct.  The answer is the ValidationError
    object exactly when the request passes the presence, type and trim
    checks; otherwise it is the error of the check that failed, naming a
    field that fails it, passed to [next]. *)
Theorem taken_username_rejected
        (hashPassword : jsstring → jsstring) (users : list User)
        (body : gmap string value) (u : jsstring) :
  body !! "username" = Some (VStr u) →
  0 < count_username users u →
  status_of (post_users hashPassword users body).1 = 422 ∧
  (post_users hashPassword users body).2 = users ∧
  (NoDup (username <$> users) →
   NoDup (username <$> (post_users hashPassword users body).2)) ∧
  ((∃ f, f ∈ requiredFields ∧ body !! f = None ∧
         (post_users hashPassword users body).1
         = next (mkError 422 (Missing_in_request_body f))) ∨
   (∃ f w, f ∈ stringFields ∧ body !! f = Some w ∧ is_string w = false ∧
           (post_users hashPassword users body).1
           = next (mkError 422 (Incorrect_field_type f))) ∨
   (∃ f s, f ∈ explicitlyTrimmedFields ∧ body !! f = Some (VStr s) ∧ trim s ≠ s ∧
           (post_users hashPassword users body).1
           = next (mkError 422 (Need_to_remove_whitespace f))) ∨
   (post_users hashPassword users body).1
   = status_json_err 422
       (mkRejection 422 "ValidationError" (Username_already_exist u) "username")) ∧
  ((post_users hashPassword users body).1
   = status_json_err 422
       (mkRejection 422 "ValidationError" (Username_already_exist u) "username")
   ↔ ∃ p, body !! "password" = Some (VStr p) ∧
          (body !! "fullname" = None ∨ ∃ f, body !! "fullname" = Some (VStr f)) ∧
          trim u = u ∧ trim p = p).
Proof.
  intros Hu Hc.
  assert (status_of (post_users hashPassword users body).1 = 422 ∧
          (post_users hashPassword users body).2 = users) as [Hst Hdb].
  { unfold post_users.
    destruct (missingField body) eqn:H1; [done|].
    destruct (nonStringFields body) eqn:H2; [done|].
    destruct (nonTrimmedFields body) eqn:H3; [done|].
    cbv zeta.
    replace (string_of (get body "username")) with u
      by (unfold get; rewrite Hu; reflexivity).
    apply Nat.ltb_lt in Hc. rewrite Hc. done. }
  assert (∀ p, body !! "password" = Some (VStr p) →
               (body !! "fullname" = None ∨ ∃ f, body !! "fullname" = Some (VStr f)) →
               trim u = u → trim p = p →
               (post_users hashPassword users body).1 =
               status_json_err 422
                 (mkRejection 422 "ValidationError" (Username_already_exist u)
                              "username")) as Hpass.
  { intros p Hp Hf Tu Tp.
    destruct (field_checks_pass body u p Hu Hp Hf Tu Tp) as (H1 & H2 & H3).
    rewrite (post_users_checked hashPassword users body u p Hu Hp H1 H2 H3).
    apply Nat.ltb_lt in Hc. rewrite Hc. done. }
  split; [done|]. split; [done|]. split; [apply post_users_unique|].
  destruct (missingField body) as [f|] eqn:H1.
  { destruct (missingField_Some body f H1) as [Hin Hf].
    assert ((post_users hashPassword users body).1
            = next (mkError 422 (Missing_in_request_body f))) as Hr
        by (unfold post_users; by rewrite H1).
    split; [left; eauto|]. rewrite Hr. split; [discriminate|].
    intros (p & Hp & _). exfalso.
    assert (missingField body = None) as E
        by (apply missingField_None; rewrite Hu, Hp; eauto).
    congruence. }
  destruct (nonStringFields body) as [f|] eqn:H2.
  { destruct (nonStringFields_Some body f H2) as (Hin & w & Hw & Hns).
    assert ((post_users hashPassword users body).1
            = next (mkError 422 (Incorrect_field_type f))) as Hr
        by (unfold post_users; by rewrite H1, H2).
    split; [right; left; eauto 10|]. rewrite Hr. split; [discriminate|].
    intros (p & Hp & Hf & Tu & Tp). exfalso.
    destruct (field_checks_pass body u p Hu Hp Hf Tu Tp) as (_ & E & _).
    congruence. }
  destruct (nonTrimmedFields body) as [f|] eqn:H3.
  { destruct (nonTrimmedFields_Some body f H1 H2 H3) as (Hin & s & Hs & Hne).
    assert ((post_users hashPassword users body).1
            = next (mkError 422 (Need_to_remove_whitespace f))) as Hr
        by (unfold post_users; by rewrite H1, H2, H3).
    split; [right; right; left; eauto 10|]. rewrite Hr. split; [discriminate|].
    intros (p & Hp & Hf & Tu & Tp). exfalso.
    destruct (field_checks_pass body u p Hu Hp Hf Tu Tp) as (_ & _ & E).
    congruence. }
  destruct (credentials_are_strings body H1 H2) as (u' & p & Hu' & Hp).
  assert (u' = u) as -> by congruence.
  destruct (proj1 (nonTrimmedFields_None body u p Hu Hp) H3) as [Tu Tp].
  pose proof (fullname_is_string body H2) as Hf.
  split; [right; right; right; by apply (Hpass p)|].
  split; [intros _; eauto 10 | intros _; by apply (Hpass p)].
Qed.

Lemma taken_username_rejected_witness :
  status_of (post_users prefix_hash [Examples.bob] (Examples.registration "bob")).1 = 422 ∧
  (post_users prefix_hash [Examples.bob] (Examples.registration "bob")).2 = [Examples.bob].
Proof.
  destruct (taken_username_rejected prefix_hash [Examples.bob]
              (Examples.registration "bob") (lit "bob")) as (H1 & H2 & _).
  - reflexivity.
  - vm_compute; lia.
  - split; [exact H1 | exact H2].
Defined.

(** C6 as stated fails: with the password missing, a taken username is
    answered by the presence check, through [next(err)], and not with the
    ValidationError object. *)
Lemma taken_username_counterexample :
  Examples.only_username !! "username" = Some (VStr (lit "bob")) ∧
  0 < count_username [Examples.bob] (lit "bob") ∧
  post_users prefix_hash [Examples.bob] Examples.only_username =
    (next (mkError 422 (Missing_in_request_body "password")), [Examples.bob]) ∧
  ¬ ∃ c err, (post_users prefix_hash [Examples.bob] Examples.only_username).1
             = status_json_err c err.
Proof.
  split; [reflexivity|]. split; [vm_compute; lia|]. split; [reflexivity|].
  intros (c & err & H). vm_compute in H. discriminate.
Qed.

End Registration.

(** * Properties of the notes router *)

Section NotesRouter.

Import Notes.

Lemma id_eq_true (v : value) (id : jsstring) : id_eq v id = true ↔ v = VStr id.
Proof.
  destruct v; simpl; try (split; [discriminate | intros [=]]).
  rewrite bool_decide_eq_true. split; [intros -> | intros [=]]; done.
Qed.

#[local] Instance VStr_inj : Inj (=) (=) VStr.
Proof. intros s1 s2 [=]. done. Qed.

Lemma NoDup_fmap_filter {A B : Type} (g : A → B) (f : A → bool) (l : list A) :
  NoDup (g <$> l) → NoDup (g <$> List.filter f l).
Proof.
  induction l as [|x l IH]; simpl; [done|].
  rewrite NoDup_cons. intros [Hx Hl]. destruct (f x); simpl; [|auto].
  apply NoDup_cons. split; [|auto].
  intros (y & Hy & [Hin _]%list_elem_of_In%filter_In)%list_elem_of_fmap.
  apply Hx, list_elem_of_fmap. exists y. by rewrite list_elem_of_In.
Qed.

(** Documents with pairwise distinct ids, each of them listed among the
    values [k], are no more than the values. *)
Lemma matched_length (R : list Tag) (k : list value) :
  NoDup (tag_id <$> R) →
  (∀ t, t ∈ R → VStr (tag_id t) ∈ k) →
  length R ≤ length k.
Proof.
  intros Hnd Hin.
  rewrite <- (length_fmap tag_id R), <- (length_fmap VStr (tag_id <$> R)).
  apply submseteq_length, NoDup_submseteq.
  - by apply (NoDup_fmap_2 VStr).
  - intros v (s & -> & (t & -> & Ht)%list_elem_of_fmap)%list_elem_of_fmap. auto.
Qed.

Lemma Tag_find_elem (db : store) (l : list value) (u : jsstring) (t : Tag) :
  t ∈ Tag_find db l u ↔ t ∈ Tag_ db ∧ VStr (tag_id t) ∈ l ∧ tag_userId t = u.
Proof.
  unfold Tag_find. rewrite list_elem_of_In, filter_In, <- list_elem_of_In.
  rewrite andb_true_iff, bool_decide_eq_true, existsb_exists.
  split.
  - intros (Ht & (v & Hv & Hid) & Hu). apply id_eq_true in Hid. subst v.
    split; [done|]. split; [by apply list_elem_of_In | done].
  - intros (Ht & Hv & Hu). split; [done|]. split; [|done].
    exists (VStr (tag_id t)). rewrite <- list_elem_of_In. split; [done|].
    by apply id_eq_true.
Qed.

(** The comparison of lengths in [validateTagIds] fails as soon as one
    position of the array can be spared: every tag found is listed at another
    position. *)
Lemma Tag_find_shorter (db : store) (l1 l2 : list value) (x : value) (u : jsstring) :
  NoDup (tag_id <$> Tag_ db) →
  (∀ t, t ∈ Tag_find db (l1 ++ x :: l2) u → VStr (tag_id t) ∈ l1 ++ l2) →
  length (Tag_find db (l1 ++ x :: l2) u) < length (l1 ++ x :: l2).
Proof.
  intros Hnd Hin.
  apply Nat.le_lt_trans with (length (l1 ++ l2)).
  - apply matched_length; [|done]. by apply NoDup_fmap_filter.
  - rewrite !length_app. simpl. lia.
Qed.

(** An element that is the id of no tag of the user. *)
Lemma Tag_find_unmatched (db : store) (l : list value) (x : value) (u : jsstring) :
  NoDup (tag_id <$> Tag_ db) →
  x ∈ l →
  (∀ t, t ∈ Tag_ db → tag_userId t = u → id_eq x (tag_id t) = false) →
  length (Tag_find db l u) < length l.
Proof.
  intros Hnd (l1 & l2 & ->)%list_elem_of_split Hx.
  apply Tag_find_shorter; [done|].
  intros t (Ht & Hv & Hu)%Tag_find_elem.
  apply elem_of_app in Hv as [Hv | [Hv | Hv]%elem_of_cons];
    [apply elem_of_app; by left | | apply elem_of_app; by right].
  specialize (Hx t Ht Hu). subst x. simpl in Hx.
  by rewrite bool_decide_eq_true_2 in Hx.
Qed.

(** An element listed twice. *)
Lemma Tag_find_repeated (db : store) (l1 l2 : list value) (x : value) (u : jsstring) :
  NoDup (tag_id <$> Tag_ db) →
  x ∈ l1 ++ l2 →
  length (Tag_find db (l1 ++ x :: l2) u) < length (l1 ++ x :: l2).
Proof.
  intros Hnd Hx. apply Tag_find_shorter; [done|].
  intros t (Ht & Hv & Hu)%Tag_find_elem.
  apply elem_of_app in Hv as [Hv | [Hv | Hv]%elem_of_cons];
    [apply elem_of_app; by left | by subst x | apply elem_of_app; by right].
Qed.

Lemma validateTagIds_shorter (db : store) (l : list value) (u : jsstring) :
  length (Tag_find db l u) < length l →
  validateTagIds db (VArr l) u = Some (rejected InvalidTag).
Proof.
  intros H. unfold validateTagIds.
  destruct (length l =? 0) eqn:H0; [apply Nat.eqb_eq in H0; lia|].
  destruct (length l =? length (Tag_find db l u)) eqn:H1;
    [apply Nat.eqb_eq in H1; lia | reflexivity].
Qed.

(** On an array the tag check is resolved or rejected with ['InvalidTag']. *)
Lemma validateTagIds_array (db : store) (l : list value) (u : jsstring) :
  validateTagIds db (VArr l) u = Some resolved ∨
  validateTagIds db (VArr l) u = Some (rejected InvalidTag).
Proof.
  unfold validateTagIds. destruct (length l =? 0); [by left|].
  destruct (negb _); [by right | by left].
Qed.

Lemma validateFolderId_cases (db : store) (v : value) (u : jsstring) :
  validateFolderId db v u = resolved ∨
  validateFolderId db v u = rejected InvalidFolder.
Proof.
  unfold validateFolderId. destruct (negb _); [by left|].
  destruct (Folder_findOne _ _ _); [by left | by right].
Qed.

Lemma Promise_all_rejected (p q : promise) (b : bool) :
  p ≠ resolved ∨ q ≠ resolved →
  ∃ r, Promise_all p q b = rejected r ∧ (p = rejected r ∨ q = rejected r).
Proof.
  destruct p as [|r1], q as [|r2], b; simpl; intros [H|H]; try done; eauto.
Qed.

(** A rejection of one of the two checks is answered with status 400 and
    nothing is written. *)
Lemma checks_rejected (db : store) (folderId : value) (l : list value)
      (u : jsstring) (b : bool) (valTagIdsProm : promise) :
  validateTagIds db (VArr l) u = Some valTagIdsProm →
  validateFolderId db folderId u ≠ resolved ∨ valTagIdsProm ≠ resolved →
  ∃ r m, Promise_all (validateFolderId db folderId u) valTagIdsProm b = rejected r
         ∧ catch r = next_err (mkError 400 m).
Proof.
  intros Ht H. destruct (Promise_all_rejected _ _ b H) as (r & -> & Hr).
  exists r. destruct Hr as [Hr | ->].
  - destruct (validateFolderId_cases db folderId u) as [E|E];
      rewrite E in Hr; [discriminate|]. injection Hr as <-. simpl. eauto.
  - destruct (validateTagIds_array db l u) as [E|E];
      rewrite E in Ht; injection Ht as Ht; try discriminate.
    subst r. simpl. eauto.
Qed.

Lemma filter_not_valid_cons (isValid : value → bool) (l : list value) (tag : value) :
  tag ∈ l → isValid tag = false →
  ∃ y ys, List.filter (λ tag, negb (isValid tag)) l = y :: ys.
Proof.
  intros Hin Hv.
  destruct (List.filter _ l) as [|y ys] eqn:E; [|eauto].
  assert (In tag (List.filter (λ tag, negb (isValid tag)) l)) as H.
  { apply filter_In. rewrite <- list_elem_of_In, Hv. done. }
  rewrite E in H. destruct H.
Qed.

Lemma tags_of_array (body : gmap string value) (l : list value) :
  get body "tags" = VArr l → tags_of body = VArr l.
Proof. unfold tags_of. by intros ->. Qed.

Ltac answered := eexists _, _; split; reflexivity.

Ltac refused := eexists; split; reflexivity.

(** The update handler on a malformed reference: it returns from the check
    that refuses it, or from an earlier one. *)
Lemma put_malformed_reference
      (isValid : value → bool) (db : store) (u id : jsstring)
      (body : gmap string value) (tagFirst : bool) :
  (truthy (get body "folderId") = true ∧ isValid (get body "folderId") = false) ∨
  (∃ l tag, get body "tags" = VArr l ∧ tag ∈ l ∧ isValid tag = false) →
  ∃ m, put isValid db u id body tagFirst = ([next_err (mkError 400 m)], db)
       ∧ of_request_check m = true.
Proof.
  intros H. unfold put.
  destruct (negb (isValid (VStr id))); [refused|].
  destruct (match get body "title" with VStr [] => true | _ => false end);
    [refused|].
  destruct (truthy (get body "folderId") && negb (isValid (get body "folderId")))
    eqn:Hf; [refused|].
  destruct H as [[Ht Hv] | (l & tag & Hl & Hin & Hv)].
  { rewrite Ht, Hv in Hf. discriminate. }
  rewrite (tags_of_array body l Hl). unfold badIds.
  destruct (filter_not_valid_cons isValid l tag Hin Hv) as (y & ys & ->).
  simpl. refused.
Qed.

(** The create handler on a malformed folderId: it returns from the check
    that refuses it, or from the title check. *)
Lemma post_malformed_folder
      (isValid : value → bool) (db : store) (u : jsstring)
      (body : gmap string value) (newId : jsstring) (tagFirst : bool) :
  truthy (get body "folderId") = true → isValid (get body "folderId") = false →
  ∃ m, post isValid db u body newId tagFirst = ([next_err (mkError 400 m)], db)
       ∧ of_request_check m = true.
Proof.
  intros Ht Hv. unfold post.
  destruct (negb (truthy (get body "title"))); [refused|].
  rewrite Ht, Hv. simpl. refused.
Qed.

(** The create handler on a malformed element of the tags: its first call is
    the error of the check that refuses it, or of an earlier one; the
    [return] being inside the callback of [forEach], other calls follow. *)
Lemma post_malformed_tag
      (isValid : value → bool) (db : store) (u : jsstring)
      (body : gmap string value) (newId : jsstring) (tagFirst : bool)
      (l : list value) (tag : value) :
  get body "tags" = VArr l → tag ∈ l → isValid tag = false →
  ∃ m rest, (post isValid db u body newId tagFirst).1
            = next_err (mkError 400 m) :: rest
            ∧ of_request_check m = true.
Proof.
  intros Hl Hin Hv. unfold post.
  destruct (negb (truthy (get body "title"))); [answered|].
  destruct (truthy (get body "folderId") && negb (isValid (get body "folderId")));
    [answered|].
  rewrite (tags_of_array body l Hl). unfold forEach_tag.
  destruct (filter_not_valid_cons isValid l tag Hin Hv) as (y & ys & ->).
  destruct (validateTagIds db (VArr l) u) as [p|]; [|simpl; answered].
  destruct (Promise_all _ p tagFirst); simpl; answered.
Qed.

Example put_malformed_tag_calls :
  put ObjectId_isValid Examples.db Examples.alice Examples.note1
      Examples.malformed_tag false
  = ([next_err (mkError 400 The_tags_id_is_not_valid)], Examples.db).
Proof. reflexivity. Qed.

(** The tags of the sample store have distinct ids. *)
Lemma sample_tag_ids_distinct : NoDup (tag_id <$> Tag_ Examples.db).
Proof. vm_compute. repeat constructor; set_solver. Qed.

(** C3, as amended.  A create or update request whose folderId is truthy and
    not a syntactically valid ObjectId is answered with one call, [next(err)]
    with a 400 error of the handler's own checks on the request, and nothing
    is written; so is an update request whose tags array has an element that
    is not a syntactically valid ObjectId.  For a create request with such an
    element the first call, which settles the response, is such a 400 error;
    what the create handler does after it is left out. *)
Theorem malformed_reference_rejected
        (isValid : value → bool) (db : store) (u id : jsstring)
        (body : gmap string value) (newId : jsstring) (tagFirst : bool) :
  (truthy (get body "folderId") = true ∧ isValid (get body "folderId") = false) ∨
  (∃ l tag, get body "tags" = VArr l ∧ tag ∈ l ∧ isValid tag = false) →
  (∃ m, put isValid db u id body tagFirst = ([next_err (mkError 400 m)], db)
        ∧ of_request_check m = true) ∧
  (∃ m rest, (post isValid db u body newId tagFirst).1
             = next_err (mkError 400 m) :: rest
             ∧ of_request_check m = true) ∧
  (truthy (get body "folderId") = true → isValid (get body "folderId") = false →
   ∃ m, post isValid db u body newId tagFirst = ([next_err (mkError 400 m)], db)
        ∧ of_request_check m = true).
Proof.
  intros H. split; [by apply put_malformed_reference|].
  split; [|apply post_malformed_folder].
  destruct H as [[Ht Hv] | (l & tag & Hl & Hin & Hv)].
  - destruct (post_malformed_folder isValid db u body newId tagFirst Ht Hv)
      as (m & -> & Hm). by exists m, [].
  - by apply (post_malformed_tag isValid db u body newId tagFirst l tag).
Qed.

Lemma malformed_reference_rejected_witness :
  (∃ m, put ObjectId_isValid Examples.db Examples.alice Examples.note1
            Examples.malformed_tag false
        = ([next_err (mkError 400 m)], Examples.db)
        ∧ of_request_check m = true) ∧
  (∃ m rest, (post ObjectId_isValid Examples.db Examples.alice
                   Examples.malformed_tag Examples.note3 false).1
             = next_err (mkError 400 m) :: rest
             ∧ of_request_check m = true).
Proof.
  destruct (malformed_reference_rejected ObjectId_isValid Examples.db
              Examples.alice Examples.note1 Examples.malformed_tag
              Examples.note3 false) as (H1 & H2 & _).
  - right. exists [VStr Examples.tag1; VStr (lit "zzz")], (VStr (lit "zzz")).
    split; [reflexivity|]. split; [|reflexivity].
    apply list_elem_of_further, list_elem_of_here.
  - split; [exact H1 | exact H2].
Defined.

(** C3 as stated fails: a folderId of [null] is not a valid ObjectId, the
    guard [folderId && ...] lets it through, and the note is created with
    status 201. *)
Lemma null_folder_counterexample :
  get Examples.null_folder "folderId" = VNull ∧
  ObjectId_isValid VNull = false ∧
  post ObjectId_isValid Examples.db Examples.alice Examples.null_folder
       Examples.note3 false
  = ([location_status_json Examples.note3 201
        (mkNote Examples.note3 (VStr (lit "t")) VUndefined VNull (VArr [])
                Examples.alice)],
     mkStore (Note_ Examples.db ++
                [mkNote Examples.note3 (VStr (lit "t")) VUndefined VNull (VArr [])
                        Examples.alice])
             (Folder_ Examples.db) (Tag_ Examples.db)) ∧
  ¬ responds_with
      (post ObjectId_isValid Examples.db Examples.alice Examples.null_folder
            Examples.note3 false).1 400.
Proof.
  split; [reflexivity|]. split; [reflexivity|]. split; [reflexivity|].
  intros (c & rest & H & Hst). vm_compute in H. injection H as <- <-.
  vm_compute in Hst. discriminate.
Qed.

(** *** Foreign references *)

(** With [tags] an array (or left out) and every reference an id as the
    store writes it, a folderId that is the id of no folder of the requester,
    or a tag element that is the id of no tag of theirs, makes both handlers
    answer with status 400 and write nothing: every exit before the write is
    a 400, and [Promise.all] is rejected.  (A reference the store cannot read
    as an id makes the query itself fail, with an error that has no status.) *)
Lemma foreign_reference_rejected
      (isValid : value → bool) (db : store) (u id : jsstring)
      (body : gmap string value) (newId : jsstring) (tagFirst : bool)
      (l : list value) :
  NoDup (tag_id <$> Tag_ db) →
  tags_of body = VArr l →
  (truthy (get body "folderId") = true →
   ∃ s, get body "folderId" = VStr s ∧ is_stored_id s = true) →
  (∀ v, v ∈ l → ∃ s, v = VStr s ∧ is_stored_id s = true) →
  (truthy (get body "folderId") = true ∧
   Folder_findOne db (get body "folderId") u = None) ∨
  (∃ tag, tag ∈ l ∧
          ∀ t, t ∈ Tag_ db → tag_userId t = u → id_eq tag (tag_id t) = false) →
  (responds_with (post isValid db u body newId tagFirst).1 400 ∧
   (post isValid db u body newId tagFirst).2 = db) ∧
  (responds_with (put isValid db u id body tagFirst).1 400 ∧
   (put isValid db u id body tagFirst).2 = db).
Proof.
  intros Hnd Hl _ _ H.
  assert (∃ p, validateTagIds db (VArr l) u = Some p ∧
               (validateFolderId db (get body "folderId") u ≠ resolved
                ∨ p ≠ resolved)) as (p & Hp & Hrej).
  { destruct H as [[Ht Hf] | (tag & Hin & Hno)].
    - destruct (validateTagIds_array db l u) as [E|E]; eexists; (split; [exact E|]);
        left; unfold validateFolderId; rewrite Ht, Hf; done.
    - eexists. split.
      + apply validateTagIds_shorter. by apply (Tag_find_unmatched db l tag u).
      + by right. }
  destruct (checks_rejected db (get body "folderId") l u tagFirst p Hp Hrej)
    as (r & m & Hall & Hcatch).
  split.
  - unfold post.
    destruct (negb (truthy (get body "title"))); [split; [answered | done]|].
    destruct (truthy (get body "folderId") && negb (isValid (get body "folderId")));
      [split; [answered | done]|].
    rewrite Hl. unfold forEach_tag. rewrite Hp, Hall, Hcatch.
    destruct (List.filter _ l); simpl; (split; [answered | done]).
  - unfold put.
    destruct (negb (isValid (VStr id))); [split; [answered | done]|].
    destruct (match get body "title" with VStr [] => true | _ => false end);
      [split; [answered | done]|].
    destruct (truthy (get body "folderId") && negb (isValid (get body "folderId")));
      [split; [answered | done]|].
    rewrite Hl. unfold badIds.
    destruct (negb _); [split; [answered | done]|].
    rewrite Hp, Hall, Hcatch. split; [answered | done].
Qed.

Example foreign_folder_rejected :
  post ObjectId_isValid Examples.db Examples.alice Examples.foreign_folder
       Examples.note3 false
  = ([next_err (mkError 400 The_folder_is_not_valid)], Examples.db).
Proof. reflexivity. Qed.

(** C4 (the code departs from it).  The folder named is another user's, and
    [tags] is a string: [tags.forEach] and [tags.filter] throw before either
    check is made, so neither handler answers with status 400.  The check
    that [tags] is an array, announced above [validateTagIds], is not made. *)
Theorem foreign_folder_with_string_tags_throws (tagFirst : bool) :
  truthy (get Examples.foreign_folder_string_tags "folderId") = true ∧
  Folder_findOne Examples.db (get Examples.foreign_folder_string_tags "folderId")
                 Examples.alice = None ∧
  post ObjectId_isValid Examples.db Examples.alice
       Examples.foreign_folder_string_tags Examples.note3 tagFirst
  = ([throws (TypeError "tags.forEach is not a function")], Examples.db) ∧
  put ObjectId_isValid Examples.db Examples.alice Examples.note1
      Examples.foreign_folder_string_tags tagFirst
  = ([throws (TypeError "tags.filter is not a function")], Examples.db) ∧
  ¬ responds_with
      (post ObjectId_isValid Examples.db Examples.alice
            Examples.foreign_folder_string_tags Examples.note3 tagFirst).1 400.
Proof.
  split; [reflexivity|]. split; [reflexivity|].
  split; [reflexivity|]. split; [reflexivity|].
  intros (c & rest & H & Hst). vm_compute in H. injection H as <- <-.
  vm_compute in Hst. discriminate.
Qed.

Lemma filter_not_valid_nil (isValid : value → bool) (l : list value) :
  (∀ v, v ∈ l → isValid v = true) →
  List.filter (λ tag, negb (isValid tag)) l = [].
Proof.
  induction l as [|y l IH]; simpl; [done|]. intros H.
  rewrite (H y) by apply list_elem_of_here. simpl.
  apply IH. intros v Hv. by apply H, list_elem_of_further.
Qed.

(** C9.  A tags array of ids, written as the store writes them, that lists
    one of them twice is rejected by the tag check with ['InvalidTag'],
    whoever owns the tags: the documents found have distinct ids, so they are
    fewer than the entries.  When the other checks pass, both handlers answer
    with the error 'The tag is not valid', status 400, and write nothing. *)
Theorem repeated_tag_rejected
        (isValid : value → bool) (db : store) (u id : jsstring)
        (body : gmap string value) (newId : jsstring) (tagFirst : bool)
        (l1 l2 l3 : list value) (x : value) :
  NoDup (tag_id <$> Tag_ db) →
  get body "tags" = VArr (l1 ++ x :: l2 ++ x :: l3) →
  (∀ v, v ∈ l1 ++ x :: l2 ++ x :: l3 → ∃ s, v = VStr s ∧ is_stored_id s = true) →
  (∀ v, v ∈ l1 ++ x :: l2 ++ x :: l3 → isValid v = true) →
  truthy (get body "title") = true →
  isValid (VStr id) = true →
  truthy (get body "folderId") && negb (isValid (get body "folderId")) = false →
  validateFolderId db (get body "folderId") u = resolved →
  validateTagIds db (VArr (l1 ++ x :: l2 ++ x :: l3)) u = Some (rejected InvalidTag) ∧
  post isValid db u body newId tagFirst
    = ([next_err (mkError 400 The_tag_is_not_valid)], db) ∧
  put isValid db u id body tagFirst
    = ([next_err (mkError 400 The_tag_is_not_valid)], db).
Proof.
  intros Hnd Hl _ Hvalid Htitle Hid Hfolder Hval.
  assert (validateTagIds db (VArr (l1 ++ x :: l2 ++ x :: l3)) u
          = Some (rejected InvalidTag)) as Hrej.
  { apply validateTagIds_shorter, Tag_find_repeated; [done|].
    apply elem_of_app. right. apply elem_of_app. right. apply list_elem_of_here. }
  pose proof (filter_not_valid_nil isValid _ Hvalid) as Hnone.
  split; [done|]. split.
  - unfold post. rewrite Htitle, Hfolder, (tags_of_array body _ Hl). simpl negb.
    cbv iota. unfold forEach_tag. rewrite Hnone, Hrej, Hval. reflexivity.
  - unfold put. rewrite Hid, Hfolder, (tags_of_array body _ Hl). simpl negb.
    cbv iota.
    assert ((match get body "title" with VStr [] => true | _ => false end) = false)
      as -> by (destruct (get body "title") as [| | | |[|]| |]; done).
    unfold badIds. rewrite Hnone, Hrej, Hval. reflexivity.
Qed.

Lemma repeated_tag_rejected_witness :
  validateTagIds Examples.db (VArr [VStr Examples.tag1; VStr Examples.tag1])
                 Examples.alice = Some (rejected InvalidTag) ∧
  post ObjectId_isValid Examples.db Examples.alice Examples.repeated_tag
       Examples.note3 false
    = ([next_err (mkError 400 The_tag_is_not_valid)], Examples.db) ∧
  put ObjectId_isValid Examples.db Examples.alice Examples.note1
      Examples.repeated_tag false
    = ([next_err (mkError 400 The_tag_is_not_valid)], Examples.db).
Proof.
  apply (repeated_tag_rejected ObjectId_isValid Examples.db Examples.alice
           Examples.note1 Examples.repeated_tag Examples.note3 false
           [] [] [] (VStr Examples.tag1)).
  - exact sample_tag_ids_distinct.
  - reflexivity.
  - intros v Hv. apply list_elem_of_In in Hv. simpl in Hv.
    destruct Hv as [<- | [<- | []]]; exists Examples.tag1; split; reflexivity.
  - intros v Hv. apply list_elem_of_In in Hv. simpl in Hv.
    destruct Hv as [<- | [<- | []]]; reflexivity.
  - reflexivity.
  - reflexivity.
  - reflexivity.
  - reflexivity.
Defined.

(** *** Ownership *)

Lemma find_none_intro {A : Type} (f : A → bool) (l : list A) :
  (∀ x, x ∈ l → f x = false) → List.find f l = None.
Proof.
  induction l as [|x l IH]; simpl; [done|]. intros H.
  rewrite (H x) by apply list_elem_of_here.
  apply IH. intros y Hy. by apply H, list_elem_of_further.
Qed.

Lemma remove_first_none {A : Type} (f : A → bool) (l : list A) :
  (∀ x, x ∈ l → f x = false) → remove_first f l = l.
Proof.
  induction l as [|x l IH]; simpl; [done|]. intros H.
  rewrite (H x) by apply list_elem_of_here.
  f_equal. apply IH. intros y Hy. by apply H, list_elem_of_further.
Qed.

Lemma not_owned_cond (db : store) (u id : jsstring) :
  not_owned db u id →
  ∀ n, n ∈ Note_ db →
       bool_decide (note_id n = id) && bool_decide (userId n = u) = false.
Proof.
  intros H n Hn. destruct (decide (note_id n = id)) as [E|E].
  - rewrite (bool_decide_eq_false_2 (userId n = u)) by by apply H.
    apply andb_false_r.
  - by rewrite (bool_decide_eq_false_2 (note_id n = id)).
Qed.

(** Fetching one note reads a note of the requester only. *)
Lemma get_id_owner (isValid : value → bool) (db : store) (u id : jsstring)
      (result : populated) :
  json result ∈ (get_id isValid db u id).1 →
  doc result ∈ Note_ db ∧ userId (doc result) = u ∧ note_id (doc result) = id.
Proof.
  unfold get_id. destruct (negb _); simpl.
  { intros [[=] | []%elem_of_nil]%elem_of_cons. }
  destruct (Note_findOne db id u) as [n|] eqn:E; simpl.
  - intros [[= ->] | []%elem_of_nil]%elem_of_cons. simpl.
    unfold Note_findOne in E. apply find_some in E as [Hin Hc].
    apply andb_true_iff in Hc as [H1 H2].
    apply bool_decide_eq_true in H1, H2. by rewrite list_elem_of_In.
  - intros [[=] | []%elem_of_nil]%elem_of_cons.
Qed.

(** Deleting removes a note of the requester only: the notes of the others
    all stay. *)
Lemma delete_id_owner (isValid : value → bool) (db : store) (u id : jsstring)
      (n : Note) :
  n ∈ Note_ db → userId n ≠ u → n ∈ Note_ (delete_id isValid db u id).2.
Proof.
  intros Hn Hu. unfold delete_id. destruct (negb _); [done|].
  unfold Note_findOneAndRemove.
  assert (n ∈ remove_first
            (λ n, bool_decide (note_id n = id) && bool_decide (userId n = u))
            (Note_ db)) as H.
  { induction (Note_ db) as [|x l IH]; simpl; [done|].
    destruct (bool_decide (note_id x = id) && bool_decide (userId x = u)) eqn:E.
    - apply elem_of_cons in Hn as [-> | Hn]; [|done].
      apply andb_true_iff in E as [_ E]. by apply bool_decide_eq_true in E.
    - apply elem_of_cons in Hn as [-> | Hn];
        [apply list_elem_of_here | apply list_elem_of_further; auto]. }
  by destruct (List.find _ _).
Qed.

(** C5.  Fetching or deleting by an id under which the requester owns no
    note is answered the same way whether the note is missing or belongs to
    another user: the calls made in two such stores are the same, they are
    the not-found [next()] when the id is well formed, and nothing is
    removed. *)
Theorem foreign_note_is_not_found
        (isValid : value → bool) (db1 db2 : store) (u id : jsstring) :
  not_owned db1 u id → not_owned db2 u id →
  (get_id isValid db1 u id).1 = (get_id isValid db2 u id).1 ∧
  (delete_id isValid db1 u id).1 = (delete_id isValid db2 u id).1 ∧
  (delete_id isValid db1 u id).2 = db1 ∧
  (delete_id isValid db2 u id).2 = db2 ∧
  (isValid (VStr id) = true →
   (get_id isValid db1 u id).1 = [next_] ∧ (delete_id isValid db1 u id).1 = [next_]).
Proof.
  intros H1 H2.
  assert (∀ db, not_owned db u id →
                get_id isValid db u id
                = (if negb (isValid (VStr id))
                   then [next_err (mkError 400 The_id_is_not_valid)] else [next_], db)
                ∧ delete_id isValid db u id
                  = (if negb (isValid (VStr id))
                     then [next_err (mkError 400 The_id_is_not_valid)] else [next_], db))
    as Hdb.
  { intros db Hno. pose proof (not_owned_cond db u id Hno) as Hc.
    unfold get_id, delete_id, Note_findOne, Note_findOneAndRemove.
    rewrite (find_none_intro _ _ Hc), (remove_first_none _ _ Hc).
    destruct (negb _), db; done. }
  destruct (Hdb db1 H1) as [-> ->]. destruct (Hdb db2 H2) as [-> ->]. simpl.
  split; [done|]. split; [done|]. split; [done|]. split; [done|].
  intros ->. done.
Qed.

Lemma foreign_note_is_not_found_witness :
  (get_id ObjectId_isValid Examples.db Examples.mallory Examples.note1).1
    = (get_id ObjectId_isValid Examples.empty_db Examples.mallory Examples.note1).1 ∧
  (delete_id ObjectId_isValid Examples.db Examples.mallory Examples.note1).1
    = (delete_id ObjectId_isValid Examples.empty_db Examples.mallory Examples.note1).1 ∧
  (delete_id ObjectId_isValid Examples.db Examples.mallory Examples.note1).2
    = Examples.db ∧
  (delete_id ObjectId_isValid Examples.empty_db Examples.mallory Examples.note1).2
    = Examples.empty_db ∧
  (ObjectId_isValid (VStr Examples.note1) = true →
   (get_id ObjectId_isValid Examples.db Examples.mallory Examples.note1).1 = [next_] ∧
   (delete_id ObjectId_isValid Examples.db Examples.mallory Examples.note1).1 = [next_]).
Proof.
  apply (foreign_note_is_not_found ObjectId_isValid Examples.db Examples.empty_db
           Examples.mallory Examples.note1).
  - intros n Hn _. apply list_elem_of_In in Hn. simpl in Hn.
    destruct Hn as [<- | []]. vm_compute. discriminate.
  - intros n Hn. apply list_elem_of_In in Hn. destruct Hn.
Defined.

(** C1 (the code departs from it).  The update handler looks the note up by
    its id alone: a user who cannot fetch another user's note can update it,
    and the note becomes theirs. *)
Theorem put_overwrites_foreign_note (tagFirst : bool) :
  Note_ Examples.db
    = [mkNote Examples.note1 (VStr (lit "groceries")) (VStr (lit "milk"))
              (VStr Examples.folder1) (VArr [VStr Examples.tag1]) Examples.alice] ∧
  get_id ObjectId_isValid Examples.db Examples.mallory Examples.note1
    = ([next_], Examples.db) ∧
  put ObjectId_isValid Examples.db Examples.mallory Examples.note1
      Examples.retitle tagFirst
    = ([json (mkPopulated
                (mkNote Examples.note1 (VStr (lit "taken over")) VUndefined VUndefined
                        (VArr []) Examples.mallory) [])],
       mkStore [mkNote Examples.note1 (VStr (lit "taken over")) VUndefined VUndefined
                       (VArr []) Examples.mallory]
               (Folder_ Examples.db) (Tag_ Examples.db)).
Proof. split; [reflexivity|]. split; reflexivity. Qed.

(** *** Updating without a title *)

Lemma put_title_check (title : value) :
  (match title with VStr [] => true | _ => false end) = true ↔ title = VStr [].
Proof. destruct title as [| | | |[|]| |]; split; done. Qed.

(** C10.  An update whose body has no title passes the title check: it is
    never answered with the missing-title error, and when the id, the folder
    and the tags pass their checks the update is made, with no title in it.
    The title check rejects the empty string, with status 400, and nothing
    else. *)
Theorem update_without_title
        (isValid : value → bool) (db : store) (u id : jsstring)
        (body : gmap string value) (tagFirst : bool) :
  body !! "title" = None →
  (next_err (mkError 400 Missing_title_in_request_body)
     ∉ (put isValid db u id body tagFirst).1) ∧
  (∀ l, isValid (VStr id) = true →
        truthy (get body "folderId") && negb (isValid (get body "folderId")) = false →
        validateFolderId db (get body "folderId") u = resolved →
        tags_of body = VArr l →
        (∀ v, v ∈ l → isValid v = true) →
        validateTagIds db (VArr l) u = Some resolved →
        put isValid db u id body tagFirst
        = match Note_findByIdAndUpdate db id
                  (mkFields VUndefined (get body "content") (get body "folderId")
                            (VArr l) u) with
          | (Some result, db') => ([json (populate db' result)], db')
          | (None, db') => ([next_], db')
          end) ∧
  (∀ title, isValid (VStr id) = true →
            (put isValid db u id (<["title" := title]> body) tagFirst
             = ([next_err (mkError 400 Missing_title_in_request_body)], db)
             ↔ title = VStr [])).
Proof.
  intros Hnone.
  assert (get body "title" = VUndefined) as Htitle by (unfold get; by rewrite Hnone).
  split; [|split].
  - unfold put. rewrite Htitle.
    destruct (negb _); [set_solver|]. cbv iota.
    destruct (_ && _); [set_solver|].
    destruct (badIds _ _) as [[|]|]; [set_solver | | set_solver].
    destruct (validateTagIds _ _ _) as [p|]; [|set_solver].
    destruct (Promise_all _ _ _) as [|[| |]]; simpl; [|set_solver..].
    destruct (List.find _ _); simpl; set_solver.
  - intros l Hid Hfolder Hval Hl Hvalid Htags.
    unfold put. rewrite Htitle, Hid, Hfolder, Hl. simpl negb. cbv iota.
    unfold badIds. rewrite (filter_not_valid_nil isValid l Hvalid), Htags, Hval.
    reflexivity.
  - intros title Hid. unfold put. rewrite Hid. simpl negb. cbv iota.
    assert (get (<["title" := title]> body) "title" = title) as ->
        by (unfold get; by rewrite lookup_insert_eq).
    rewrite <- put_title_check.
    destruct (match title with VStr [] => true | _ => false end); [done|].
    split; [|done].
    destruct (_ && _); [done|].
    destruct (badIds _ _) as [[|]|]; [done | | done].
    destruct (validateTagIds _ _ _) as [p|]; [|done].
    destruct (Promise_all _ _ _) as [|[| |]]; simpl; [|done..].
    destruct (List.find _ _); done.
Qed.

Lemma update_without_title_witness :
  (next_err (mkError 400 Missing_title_in_request_body)
     ∉ (put ObjectId_isValid Examples.db Examples.alice Examples.note1
            Examples.only_content false).1) ∧
  put ObjectId_isValid Examples.db Examples.alice Examples.note1
      Examples.only_content false
    = ([json (mkPopulated
                (mkNote Examples.note1 VUndefined (VStr (lit "eggs")) VUndefined
                        (VArr []) Examples.alice) [])],
       mkStore [mkNote Examples.note1 VUndefined (VStr (lit "eggs")) VUndefined
                       (VArr []) Examples.alice]
               (Folder_ Examples.db) (Tag_ Examples.db)).
Proof.
  destruct (update_without_title ObjectId_isValid Examples.db Examples.alice
              Examples.note1 Examples.only_content false) as (H1 & H2 & _).
  - reflexivity.
  - split; [exact H1|].
    apply (H2 []); try reflexivity.
    intros v Hv. apply list_elem_of_In in Hv. destruct Hv.
Defined.

End NotesRouter.

(** * Further properties of the registration handler *)

Section RegistrationFacts.

Import Users.

(** ** [trim] *)

Lemma trimStart_no_lead (s : jsstring) : no_lead (trimStart s).
Proof.
  induction s as [|c s IH]; simpl; [done|].
  destruct (is_white_space c) eqn:E; [done | by simpl].
Qed.

Lemma trimStart_id (s : jsstring) : no_lead s → trimStart s = s.
Proof. destruct s as [|c s]; simpl; [done | by intros ->]. Qed.

Lemma trimStart_suffix (s : jsstring) : trimStart s `suffix_of` s.
Proof.
  induction s as [|c s IH]; simpl; [done|].
  destruct (is_white_space c); [by apply suffix_cons_r | done].
Qed.

Lemma prefix_no_lead (s t : jsstring) : t `prefix_of` s → no_lead s → no_lead t.
Proof.
  intros [k ->]. destruct t; simpl; done.
Qed.

Lemma trim_no_lead (s : jsstring) : no_lead (trim s) ∧ no_lead (rev (trim s)).
Proof.
  unfold trim, trimEnd. split.
  - apply (prefix_no_lead (trimStart s)); [|apply trimStart_no_lead].
    destruct (trimStart_suffix (rev (trimStart s))) as [k Hk].
    exists (rev k). rewrite <- (rev_involutive (trimStart s)) at 1.
    rewrite Hk at 1. apply rev_app_distr.
  - rewrite rev_involutive. apply trimStart_no_lead.
Qed.

Lemma trim_id (s : jsstring) : no_lead s → no_lead (rev s) → trim s = s.
Proof.
  intros H1 H2. unfold trim, trimEnd.
  rewrite (trimStart_id s H1), (trimStart_id (rev s) H2). apply rev_involutive.
Qed.

Lemma trim_idempotent (s : jsstring) : trim (trim s) = trim s.
Proof. destruct (trim_no_lead s). by apply trim_id. Qed.

(** ** The checks in order *)

Lemma nonStringFields_None (body : gmap string value) :
  nonStringFields body = None ↔
  ∀ f v, f ∈ stringFields → body !! f = Some v → ∃ s, v = VStr s.
Proof.
  unfold nonStringFields. split.
  - intros H f v Hf Hv. apply list_elem_of_In in Hf.
    apply (present_field_is_string body f v Hv), (find_none _ _ H f Hf).
  - intros H. apply find_none_intro. intros f Hf.
    unfold has_field, get. destruct (body !! f) as [v|] eqn:Hv; simpl.
    + destruct (H f v Hf Hv) as [s ->]. simpl. by rewrite ?andb_false_r.
    + done.
Qed.

(** What the handler answers to a taken username. *)
Lemma taken_username_422 (hashPassword : jsstring → jsstring)
      (users : list User) (body : gmap string value) (u : jsstring) :
  body !! "username" = Some (VStr u) →
  0 < count_username users u →
  status_of (post_users hashPassword users body).1 = 422 ∧
  (post_users hashPassword users body).2 = users.
Proof.
  intros Hu Hc. unfold post_users.
  destruct (missingField body); [done|].
  destruct (nonStringFields body); [done|].
  destruct (nonTrimmedFields body); [done|].
  cbv zeta.
  replace (string_of (get body "username")) with u
    by (unfold get; rewrite Hu; reflexivity).
  apply Nat.ltb_lt in Hc. rewrite Hc. done.
Qed.

(** X1.  A registration is answered with status 201 exactly when username
    and password are present, strings and trimmed, fullname is absent or a
    string, and no user has the username, whatever the lengths of the
    credentials; and the answer then carries the user that is appended to the
    collection, with the submitted username and full name and the digest of
    the password. *)
Theorem registration_succeeds_iff
        (hashPassword : jsstring → jsstring) (users : list User)
        (body : gmap string value) :
  (status_of (post_users hashPassword users body).1 = 201 ↔
   ∃ u p, body !! "username" = Some (VStr u) ∧
          body !! "password" = Some (VStr p) ∧
          (body !! "fullname" = None ∨ ∃ f, body !! "fullname" = Some (VStr f)) ∧
          trim u = u ∧ trim p = p ∧
          count_username users u = 0) ∧
  (∀ u p, body !! "username" = Some (VStr u) →
          body !! "password" = Some (VStr p) →
          (body !! "fullname" = None ∨ ∃ f, body !! "fullname" = Some (VStr f)) →
          trim u = u → trim p = p →
          count_username users u = 0 →
          post_users hashPassword users body
          = (status_location_json 201 (length users)
               (mkUser (length users) u (hashPassword p)
                       (match get body "fullname" with
                        | VStr f => Some f | _ => None end)),
             users ++ [mkUser (length users) u (hashPassword p)
                              (match get body "fullname" with
                               | VStr f => Some f | _ => None end)])).
Proof.
  assert (∀ u p, body !! "username" = Some (VStr u) →
          body !! "password" = Some (VStr p) →
          (body !! "fullname" = None ∨ ∃ f, body !! "fullname" = Some (VStr f)) →
          trim u = u → trim p = p →
          count_username users u = 0 →
          post_users hashPassword users body
          = (status_location_json 201 (length users)
               (mkUser (length users) u (hashPassword p)
                       (match get body "fullname" with
                        | VStr f => Some f | _ => None end)),
             users ++ [mkUser (length users) u (hashPassword p)
                              (match get body "fullname" with
                               | VStr f => Some f | _ => None end)])) as Hok.
  { intros u p Hu Hp Hf Tu Tp Hc.
    destruct (field_checks_pass body u p Hu Hp Hf Tu Tp) as (H1 & H2 & H3).
    rewrite (post_users_checked hashPassword users body u p Hu Hp H1 H2 H3).
    rewrite Hc. reflexivity. }
  split; [|exact Hok]. split.
  - intros Hst.
    destruct (missingField body) eqn:H1;
      [unfold post_users in Hst; rewrite H1 in Hst; discriminate|].
    destruct (nonStringFields body) eqn:H2;
      [unfold post_users in Hst; rewrite H1, H2 in Hst; discriminate|].
    destruct (nonTrimmedFields body) eqn:H3;
      [unfold post_users in Hst; rewrite H1, H2, H3 in Hst; discriminate|].
    destruct (credentials_are_strings body H1 H2) as (u & p & Hu & Hp).
    exists u, p. split; [done|]. split; [done|].
    split; [by apply fullname_is_string|].
    destruct (proj1 (nonTrimmedFields_None body u p Hu Hp) H3) as [Tu Tp].
    split; [done|]. split; [done|].
    rewrite (post_users_checked hashPassword users body u p Hu Hp H1 H2 H3) in Hst.
    destruct (0 <? count_username users u) eqn:Hc; [discriminate|].
    apply Nat.ltb_ge in Hc. lia.
  - intros (u & p & Hu & Hp & Hf & Tu & Tp & Hc).
    by rewrite (Hok u p Hu Hp Hf Tu Tp Hc).
Qed.

(** X2.  A registration that lacks a credential is answered with status 422
    and the error naming the first missing one, username before password,
    whatever else the body holds; and the missing-field error is given to
    such requests only. *)
Theorem missing_credential_reported
        (hashPassword : jsstring → jsstring) (users : list User)
        (body : gmap string value) :
  (body !! "username" = None →
   post_users hashPassword users body
   = (next (mkError 422 (Missing_in_request_body "username")), users)) ∧
  (is_Some (body !! "username") → body !! "password" = None →
   post_users hashPassword users body
   = (next (mkError 422 (Missing_in_request_body "password")), users)) ∧
  (∀ c f, (post_users hashPassword users body).1
          = next (mkError c (Missing_in_request_body f)) →
          body !! "username" = None ∨ body !! "password" = None).
Proof.
  split; [|split].
  - intros Hu. unfold post_users, missingField, requiredFields, has_field. simpl.
    rewrite Hu. rewrite bool_decide_eq_false_2 by (by intros [? ?]). reflexivity.
  - intros Hu Hp. unfold post_users, missingField, requiredFields, has_field. simpl.
    rewrite Hp. rewrite (bool_decide_eq_true_2 _ Hu).
    rewrite bool_decide_eq_false_2 by (by intros [? ?]). reflexivity.
  - intros c f H. unfold post_users in H.
    destruct (missingField body) eqn:H1.
    + destruct (body !! "username") eqn:Hu; [|by left].
      destruct (body !! "password") eqn:Hp; [|by right].
      assert (missingField body = None) as E
          by (apply missingField_None; rewrite Hu, Hp; eauto).
      congruence.
    + destruct (nonStringFields body); [discriminate|].
      destruct (nonTrimmedFields body); [discriminate|].
      cbv zeta in H. destruct (0 <? _); discriminate.
Qed.

Lemma missing_credential_reported_witness :
  post_users prefix_hash [Examples.bob] Examples.only_username
  = (next (mkError 422 (Missing_in_request_body "password")), [Examples.bob]).
Proof.
  apply (missing_credential_reported prefix_hash [Examples.bob] Examples.only_username).
  - eexists; reflexivity.
  - reflexivity.
Defined.

(** X3.  With both credentials present, a value that is not a string in
    username, password or the optional fullname is answered with status 422
    and the type error of a field, and no user is created. *)
Theorem non_string_field_rejected
        (hashPassword : jsstring → jsstring) (users : list User)
        (body : gmap string value) (field : string) (v : value) :
  is_Some (body !! "username") → is_Some (body !! "password") →
  field ∈ stringFields →
  body !! field = Some v → is_string v = false →
  ∃ f, post_users hashPassword users body
       = (next (mkError 422 (Incorrect_field_type f)), users)
       ∧ f ∈ stringFields
       ∧ ∃ w, body !! f = Some w ∧ is_string w = false.
Proof.
  intros Hu Hp Hfield Hv Hns. unfold post_users.
  rewrite (proj2 (missingField_None body)) by done.
  destruct (nonStringFields body) as [f|] eqn:H2.
  - exists f. split; [done|].
    unfold nonStringFields in H2. apply find_some in H2 as [Hin Hc].
    split; [by apply list_elem_of_In|].
    apply andb_true_iff in Hc as [Hc1 Hc2].
    apply has_field_true in Hc1 as [w Hw]. exists w. split; [done|].
    unfold get in Hc2. rewrite Hw in Hc2. simpl in Hc2.
    by apply negb_true_iff in Hc2.
  - destruct (proj1 (nonStringFields_None body) H2 field v Hfield Hv) as [s ->].
    discriminate.
Qed.

Lemma non_string_field_rejected_witness :
  ∃ f, post_users prefix_hash []
         (<["fullname" := VNum 7]> (Examples.registration "alice"))
       = (next (mkError 422 (Incorrect_field_type f)), [])
       ∧ f ∈ stringFields
       ∧ ∃ w, (<["fullname" := VNum 7]> (Examples.registration "alice")) !! f = Some w
              ∧ is_string w = false.
Proof.
  apply (non_string_field_rejected prefix_hash []
           (<["fullname" := VNum 7]> (Examples.registration "alice"))
           "fullname" (VNum 7)).
  - eexists; reflexivity.
  - eexists; reflexivity.
  - apply list_elem_of_further, list_elem_of_further, list_elem_of_here.
  - reflexivity.
  - reflexivity.
Defined.

(** X4.  Whatever the request, a collection with pairwise distinct usernames
    has pairwise distinct usernames after the handler has run. *)
Theorem registration_keeps_usernames_distinct
        (hashPassword : jsstring → jsstring) (users : list User)
        (body : gmap string value) :
  NoDup (username <$> users) →
  NoDup (username <$> (post_users hashPassword users body).2).
Proof. apply post_users_unique. Qed.

Lemma registration_keeps_usernames_distinct_witness :
  NoDup (username <$> (post_users prefix_hash [Examples.bob]
                                  (Examples.registration "alice")).2).
Proof.
  apply (registration_keeps_usernames_distinct prefix_hash [Examples.bob]
           (Examples.registration "alice")).
  apply NoDup_singleton.
Defined.

(** X5.  The handler never changes or removes a stored user: the collection
    afterwards is the one before, with at most the new user appended; and it
    grows exactly when the answer is 201. *)
Theorem registration_keeps_existing_users
        (hashPassword : jsstring → jsstring) (users : list User)
        (body : gmap string value) :
  (status_of (post_users hashPassword users body).1 = 422 ∧
   (post_users hashPassword users body).2 = users) ∨
  (status_of (post_users hashPassword users body).1 = 201 ∧
   ∃ result, (post_users hashPassword users body).2 = users ++ [result]
             ∧ (post_users hashPassword users body).1
               = status_location_json 201 (_id result) result).
Proof.
  unfold post_users.
  destruct (missingField body); [by left|].
  destruct (nonStringFields body); [by left|].
  destruct (nonTrimmedFields body); [by left|].
  cbv zeta. destruct (0 <? _); [by left|].
  right. split; [done|]. eexists. split; reflexivity.
Qed.

Lemma post_users_created
      (hashPassword : jsstring → jsstring) (users users' : list User)
      (body : gmap string value) (c i : nat) (result : User) :
  post_users hashPassword users body = (status_location_json c i result, users') →
  users' = users ++ [result] ∧ body !! "username" = Some (VStr (username result)).
Proof.
  intros H. unfold post_users in H.
  destruct (missingField body) eqn:H1; [discriminate|].
  destruct (nonStringFields body) eqn:H2; [discriminate|].
  destruct (nonTrimmedFields body) eqn:H3; [discriminate|].
  destruct (credentials_are_strings body H1 H2) as (u & p & Hu & Hp).
  cbv zeta in H. destruct (0 <? _); [discriminate|].
  injection H as <- <- <- <-. split; [done|].
  simpl. unfold get. by rewrite Hu.
Qed.

Lemma count_username_pos (users : list User) (r : User) :
  r ∈ users → 0 < count_username users (username r).
Proof.
  intros Hr. destruct (count_username users (username r)) eqn:E; [|lia].
  apply count_username_0 in E. exfalso. apply E, list_elem_of_fmap. eauto.
Qed.

(** X6.  Once a registration has succeeded, every later registration under
    the same username is answered with status 422 and creates no user. *)
Theorem registered_username_is_taken
        (hashPassword : jsstring → jsstring) (users users' : list User)
        (body body' : gmap string value) (c i : nat) (result : User) :
  post_users hashPassword users body = (status_location_json c i result, users') →
  body' !! "username" = body !! "username" →
  status_of (post_users hashPassword users' body').1 = 422 ∧
  (post_users hashPassword users' body').2 = users'.
Proof.
  intros H Hsame.
  destruct (post_users_created hashPassword users users' body c i result H)
    as [-> Hu].
  apply (taken_username_422 hashPassword _ body' (username result));
    [congruence|].
  apply count_username_pos, elem_of_app. right. apply list_elem_of_here.
Qed.

Lemma registered_username_is_taken_witness :
  status_of (post_users prefix_hash
               [mkUser 0 (lit "alice") (prefix_hash (lit "password1")) None]
               (<["fullname" := VStr (lit "Alice")]> (Examples.registration "alice"))).1
  = 422 ∧
  (post_users prefix_hash
     [mkUser 0 (lit "alice") (prefix_hash (lit "password1")) None]
     (<["fullname" := VStr (lit "Alice")]> (Examples.registration "alice"))).2
  = [mkUser 0 (lit "alice") (prefix_hash (lit "password1")) None].
Proof.
  apply (registered_username_is_taken prefix_hash [] _
           (Examples.registration "alice")
           (<["fullname" := VStr (lit "Alice")]> (Examples.registration "alice"))
           201 0 (mkUser 0 (lit "alice") (prefix_hash (lit "password1")) None)).
  - reflexivity.
  - reflexivity.
Defined.

(** X7.  Trimming the credentials is what the whitespace error asks for:
    when username and password are strings and fullname is absent or a
    string, the request with both credentials trimmed passes the presence,
    type and trim checks, so it is answered with 201 or, the username being
    taken, with the ValidationError object. *)
Theorem trimmed_credentials_pass
        (hashPassword : jsstring → jsstring) (users : list User)
        (body : gmap string value) (u p : jsstring) :
  body !! "username" = Some (VStr u) →
  body !! "password" = Some (VStr p) →
  (body !! "fullname" = None ∨ ∃ f, body !! "fullname" = Some (VStr f)) →
  let body' := <["username" := VStr (trim u)]> (<["password" := VStr (trim p)]> body) in
  (∃ result, (post_users hashPassword users body').1
             = status_location_json 201 (_id result) result
             ∧ username result = trim u ∧ password result = hashPassword (trim p)) ∨
  (post_users hashPassword users body').1
  = status_json_err 422
      (mkRejection 422 "ValidationError" (Username_already_exist (trim u)) "username").
Proof.
  intros Hu Hp Hf body'.
  assert (body' !! "username" = Some (VStr (trim u))) as Hu'
      by apply lookup_insert_eq.
  assert (body' !! "password" = Some (VStr (trim p))) as Hp'.
  { unfold body'. rewrite lookup_insert_ne by done. apply lookup_insert_eq. }
  assert (body' !! "fullname" = body !! "fullname") as Hf'.
  { unfold body'. by rewrite !lookup_insert_ne by done. }
  destruct (field_checks_pass body' (trim u) (trim p) Hu' Hp') as (H1 & H2 & H3);
    [by rewrite Hf' | apply trim_idempotent | apply trim_idempotent |].
  rewrite (post_users_checked hashPassword users body' _ _ Hu' Hp' H1 H2 H3).
  destruct (0 <? _); [by right|].
  left. eexists. split; [reflexivity|]. done.
Qed.

Lemma trimmed_credentials_pass_witness :
  (∃ result,
     (post_users prefix_hash []
        (<["username" := VStr (trim (lit " bob"))]>
           (<["password" := VStr (trim (lit "password1"))]>
              Examples.untrimmed_username))).1
     = status_location_json 201 (_id result) result
     ∧ username result = trim (lit " bob")
     ∧ password result = prefix_hash (trim (lit "password1"))) ∨
  (post_users prefix_hash []
     (<["username" := VStr (trim (lit " bob"))]>
        (<["password" := VStr (trim (lit "password1"))]>
           Examples.untrimmed_username))).1
  = status_json_err 422
      (mkRejection 422 "ValidationError"
                   (Username_already_exist (trim (lit " bob"))) "username").
Proof.
  apply (trimmed_credentials_pass prefix_hash [] Examples.untrimmed_username
           (lit " bob") (lit "password1")).
  - reflexivity.
  - reflexivity.
  - left. reflexivity.
Defined.

End RegistrationFacts.

(** * Further properties of the notes router *)

Section NotesFacts.

Import Notes.

(** ** Listing *)

Lemma doc_populate (db : store) (l : list Note) : doc <$> (populate db <$> l) = l.
Proof. induction l as [|n l IH]; [done|]. by rewrite !fmap_cons, IH. Qed.

#[local] Instance updatedAt_desc_total (updatedAt : Note → nat) :
  Total (updatedAt_desc updatedAt).
Proof. intros n1 n2. unfold updatedAt_desc. lia. Qed.

#[local] Instance updatedAt_desc_trans (updatedAt : Note → nat) :
  Transitive (updatedAt_desc updatedAt).
Proof. intros n1 n2 n3. unfold updatedAt_desc. lia. Qed.

(** What [get_all] answers, in terms of the filter. *)
Lemma get_all_results
      (RegExp_i : value → option (value → bool)) (updatedAt : Note → nat)
      (db db' : store) (u : jsstring) (query : gmap string value)
      (results : list populated) :
  get_all RegExp_i updatedAt db u query = (json_results results, db') →
  db' = db ∧
  ∃ f, list_filter RegExp_i u query = Some f ∧
       results = populate db <$> merge_sort (updatedAt_desc updatedAt)
                                            (List.filter f (Note_ db)).
Proof.
  unfold get_all. destruct (list_filter RegExp_i u query) as [f|]; [|discriminate].
  intros [= <- <-]. eauto.
Qed.

Lemma elem_of_results
      (updatedAt : Note → nat) (db : store) (f : Note → bool) (r : populated) :
  r ∈ populate db <$> merge_sort (updatedAt_desc updatedAt) (List.filter f (Note_ db))
  ↔ ∃ n, r = populate db n ∧ n ∈ Note_ db ∧ f n = true.
Proof.
  rewrite list_elem_of_fmap. setoid_rewrite merge_sort_Permutation.
  setoid_rewrite list_elem_of_In. setoid_rewrite filter_In. done.
Qed.

Lemma list_filter_user
      (RegExp_i : value → option (value → bool)) (u : jsstring)
      (query : gmap string value) (f : Note → bool) (n : Note) :
  list_filter RegExp_i u query = Some f → f n = true →
  userId n = u ∧
  (truthy (get query "folderId") = true →
   folderId n = get query "folderId") ∧
  (truthy (get query "tagId") = true →
   ∃ l, tags n = VArr l ∧ get query "tagId" ∈ l).
Proof.
  unfold list_filter. intros Hf Hn.
  destruct (if truthy (get query "searchTerm") then _ else _) as [term|];
    [|discriminate].
  injection Hf as <-.
  apply andb_true_iff in Hn as [Hn Htag]. apply andb_true_iff in Hn as [Hn Hfolder].
  apply andb_true_iff in Hn as [Huser _]. apply bool_decide_eq_true in Huser.
  split; [done|]. split.
  - intros Ht. rewrite Ht in Hfolder. unfold field_is in Hfolder.
    destruct (folderId n); try discriminate.
    apply id_eq_true in Hfolder. by rewrite Hfolder.
  - intros Ht. rewrite Ht in Htag. unfold array_has in Htag.
    destruct (tags n) as [| | | | |l|]; try discriminate.
    exists l. split; [done|].
    apply existsb_exists in Htag as (x & Hx & Hfx).
    unfold field_is in Hfx. destruct x; try discriminate.
    apply id_eq_true in Hfx. rewrite Hfx. by apply list_elem_of_In.
Qed.

Lemma is_stored_id_truthy (s : jsstring) :
  is_stored_id s = true → truthy (VStr s) = true.
Proof.
  unfold is_stored_id. intros [Hlen _]%andb_true_iff.
  apply Nat.eqb_eq in Hlen. simpl. destruct s; [discriminate | done].
Qed.

(** X8.  The listing never shows a note of another user: every note listed
    is a note of the store owned by the requester, and the store is left as it
    was.  When the query gives a folder, or a tag, as an id written as the
    store writes it, every note listed is in that folder, or carries that
    tag. *)
Theorem listing_is_scoped
        (RegExp_i : value → option (value → bool)) (updatedAt : Note → nat)
        (db db' : store) (u : jsstring) (query : gmap string value)
        (results : list populated) (r : populated) :
  get_all RegExp_i updatedAt db u query = (json_results results, db') →
  r ∈ results →
  db' = db ∧
  doc r ∈ Note_ db ∧
  userId (doc r) = u ∧
  (∀ s, get query "folderId" = VStr s → is_stored_id s = true →
        folderId (doc r) = VStr s) ∧
  (∀ s, get query "tagId" = VStr s → is_stored_id s = true →
        ∃ l, tags (doc r) = VArr l ∧ VStr s ∈ l).
Proof.
  intros H Hr. destruct (get_all_results _ _ _ _ _ _ _ H) as (-> & f & Hf & ->).
  split; [done|].
  apply elem_of_results in Hr as (n & -> & Hn & Hfn). simpl.
  split; [done|].
  destruct (list_filter_user RegExp_i u query f n Hf Hfn) as (Hu & Hfolder & Htag).
  split; [done|]. split.
  - intros s Hs Hid. rewrite <- Hs. apply Hfolder.
    rewrite Hs. by apply is_stored_id_truthy.
  - intros s Hs Hid. rewrite <- Hs. apply Htag.
    rewrite Hs. by apply is_stored_id_truthy.
Qed.

Lemma listing_is_scoped_witness :
  Examples.db2 = Examples.db2 ∧
  doc (populate Examples.db2
         (mkNote Examples.note1 (VStr (lit "groceries")) (VStr (lit "milk"))
                 (VStr Examples.folder1) (VArr [VStr Examples.tag1]) Examples.alice))
    ∈ Note_ Examples.db2 ∧
  userId (doc (populate Examples.db2
         (mkNote Examples.note1 (VStr (lit "groceries")) (VStr (lit "milk"))
                 (VStr Examples.folder1) (VArr [VStr Examples.tag1]) Examples.alice)))
    = Examples.alice ∧
  folderId (doc (populate Examples.db2
         (mkNote Examples.note1 (VStr (lit "groceries")) (VStr (lit "milk"))
                 (VStr Examples.folder1) (VArr [VStr Examples.tag1]) Examples.alice)))
    = VStr Examples.folder1.
Proof.
  destruct (listing_is_scoped Examples.starts_with Examples.title_length
           Examples.db2 Examples.db2 Examples.alice
           {[ "folderId" := VStr Examples.folder1 ]}
           [populate Examples.db2
              (mkNote Examples.note1 (VStr (lit "groceries")) (VStr (lit "milk"))
                 (VStr Examples.folder1) (VArr [VStr Examples.tag1]) Examples.alice)]
           (populate Examples.db2
              (mkNote Examples.note1 (VStr (lit "groceries")) (VStr (lit "milk"))
                 (VStr Examples.folder1) (VArr [VStr Examples.tag1]) Examples.alice)))
    as (H1 & H2 & H3 & H4 & _).
  - reflexivity.
  - apply list_elem_of_here.
  - split; [exact H1|]. split; [exact H2|]. split; [exact H3|].
    apply (H4 Examples.folder1); reflexivity.
Defined.

(** X9.  With no search term, folder or tag in the query, the listing is
    exactly the notes of the requester: each of them once, and nothing else. *)
Theorem listing_is_complete
        (RegExp_i : value → option (value → bool)) (updatedAt : Note → nat)
        (db : store) (u : jsstring) (query : gmap string value) :
  truthy (get query "searchTerm") = false →
  truthy (get query "folderId") = false →
  truthy (get query "tagId") = false →
  ∃ results,
    get_all RegExp_i updatedAt db u query = (json_results results, db) ∧
    doc <$> results
    ≡ₚ List.filter (λ n, bool_decide (userId n = u)) (Note_ db).
Proof.
  intros H1 H2 H3. unfold get_all, list_filter. rewrite H1, H2, H3.
  eexists. split; [reflexivity|].
  rewrite doc_populate, merge_sort_Permutation.
  erewrite filter_ext; [reflexivity|].
  intros n. simpl. by rewrite !andb_true_r.
Qed.

Lemma listing_is_complete_witness :
  ∃ results,
    get_all Examples.starts_with Examples.title_length Examples.db2
            Examples.alice ∅ = (json_results results, Examples.db2) ∧
    doc <$> results
    ≡ₚ List.filter (λ n, bool_decide (userId n = Examples.alice))
                   (Note_ Examples.db2).
Proof.
  apply (listing_is_complete Examples.starts_with Examples.title_length
           Examples.db2 Examples.alice ∅); reflexivity.
Defined.

Lemma StronglySorted_lookup {A : Type} (R : relation A) (l : list A)
      (i j : nat) (x y : A) :
  StronglySorted R l → l !! i = Some x → l !! j = Some y → i < j → R x y.
Proof.
  intros Hs. revert i j.
  induction Hs as [|a l Hs IH Hall]; intros i j Hi Hj Hij; [done|].
  destruct j as [|j]; [lia|]. simpl in Hj.
  destruct i as [|i]; simpl in Hi.
  - injection Hi as <-. rewrite Forall_forall in Hall.
    apply Hall. by apply (list_elem_of_lookup_2 l j).
  - apply (IH i j); [done | done | lia].
Qed.

(** X10.  The notes are listed from the most recently updated to the least:
    no note comes before one with a later [updatedAt]. *)
Theorem listing_is_sorted
        (RegExp_i : value → option (value → bool)) (updatedAt : Note → nat)
        (db db' : store) (u : jsstring) (query : gmap string value)
        (results : list populated) (i j : nat) (r1 r2 : populated) :
  get_all RegExp_i updatedAt db u query = (json_results results, db') →
  results !! i = Some r1 → results !! j = Some r2 → i < j →
  updatedAt (doc r2) ≤ updatedAt (doc r1).
Proof.
  intros H Hi Hj Hij.
  destruct (get_all_results _ _ _ _ _ _ _ H) as (_ & f & _ & ->).
  pose proof (StronglySorted_merge_sort (updatedAt_desc updatedAt)
                (List.filter f (Note_ db))) as Hs.
  rewrite list_lookup_fmap in Hi, Hj.
  destruct (merge_sort _ _ !! i) as [n1|] eqn:E1; [|discriminate].
  destruct (merge_sort _ _ !! j) as [n2|] eqn:E2; [|discriminate].
  injection Hi as <-. injection Hj as <-. simpl.
  apply (StronglySorted_lookup (updatedAt_desc updatedAt) _ i j n1 n2 Hs E1 E2 Hij).
Qed.

Lemma listing_is_sorted_witness :
  Examples.title_length
    (doc (populate Examples.db2
            (mkNote Examples.note1 (VStr (lit "groceries")) (VStr (lit "milk"))
                    (VStr Examples.folder1) (VArr [VStr Examples.tag1])
                    Examples.alice)))
  ≤ Examples.title_length
      (doc (populate Examples.db2
              (mkNote Examples.note3 (VStr (lit "gardening tips"))
                      (VStr (lit "water")) VUndefined (VArr []) Examples.alice))).
Proof.
  apply (listing_is_sorted Examples.starts_with Examples.title_length
           Examples.db2 Examples.db2 Examples.alice ∅
           [populate Examples.db2
              (mkNote Examples.note3 (VStr (lit "gardening tips"))
                      (VStr (lit "water")) VUndefined (VArr []) Examples.alice);
            populate Examples.db2
              (mkNote Examples.note1 (VStr (lit "groceries")) (VStr (lit "milk"))
                      (VStr Examples.folder1) (VArr [VStr Examples.tag1])
                      Examples.alice)]
           0 1).
  - reflexivity.
  - reflexivity.
  - reflexivity.
  - lia.
Defined.

(** X11.  The listing fails exactly when a search term is given that is no
    regular expression: an exception leaves the handler and the store is left
    as it was.  Without a search term, or with the empty one, no expression
    is built and the listing is answered. *)
Theorem listing_throws_iff
        (RegExp_i : value → option (value → bool)) (updatedAt : Note → nat)
        (db : store) (u : jsstring) (query : gmap string value) :
  (get_all RegExp_i updatedAt db u query).2 = db ∧
  ((get_all RegExp_i updatedAt db u query).1 = throws_SyntaxError ↔
   truthy (get query "searchTerm") = true ∧
   RegExp_i (get query "searchTerm") = None).
Proof.
  unfold get_all, list_filter.
  destruct (truthy (get query "searchTerm")).
  - destruct (RegExp_i (get query "searchTerm")); simpl; split; try done;
      split; try done; by intros [_ ?].
  - simpl. split; [done|]. split; [done | by intros [? _]].
Qed.

(** ** The two write paths, read off the handlers *)

Lemma forEach_tag_not_created (isValid : value → bool) (tags : value)
      (calls : list call) :
  forEach_tag isValid tags = Some calls →
  calls = replicate (length calls) (next_err (mkError 400 The_tags_id_is_not_valid)).
Proof.
  unfold forEach_tag. destruct tags as [| | | | |l|];
    try (destruct (truthy _); [discriminate|]); try (by intros [= <-]).
  intros [= <-]. induction (List.filter _ l) as [|x k IH]; simpl; [done|].
  by rewrite <- IH.
Qed.

Lemma catch_not_created (r : rejection) : is_created (catch r) = false.
Proof. by destruct r. Qed.

(** Either the create handler writes nothing and never answers 201, or both
    checks are resolved, the note of the body is appended and 201 is the last
    call. *)
Lemma post_inv (isValid : value → bool) (db : store) (u : jsstring)
      (body : gmap string value) (newId : jsstring) (tagFirst : bool) :
  ((post isValid db u body newId tagFirst).2 = db ∧
   forallb (λ c, negb (is_created c)) (post isValid db u body newId tagFirst).1 = true) ∨
  (truthy (get body "title") = true ∧
   validateFolderId db (get body "folderId") u = resolved ∧
   validateTagIds db (tags_of body) u = Some resolved ∧
   ∃ calls, forEach_tag isValid (tags_of body) = Some calls ∧
            post isValid db u body newId tagFirst
            = (calls ++ [location_status_json newId 201 (note_of body newId u)],
               mkStore (Note_ db ++ [note_of body newId u]) (Folder_ db) (Tag_ db))).
Proof.
  unfold post.
  destruct (truthy (get body "title")) eqn:Ht; simpl; [|by left].
  destruct (_ && _); [by left|].
  destruct (forEach_tag isValid (tags_of body)) as [calls|] eqn:Hc; [|by left].
  assert (forallb (λ c, negb (is_created c)) calls = true) as Hcalls.
  { rewrite (forEach_tag_not_created _ _ _ Hc).
    induction (length calls); simpl; done. }
  destruct (validateTagIds db (tags_of body) u) as [p|] eqn:Hp.
  2:{ left. split; [done|]. cbn [fst]. by rewrite forallb_app, Hcalls. }
  destruct (validateFolderId db (get body "folderId") u) eqn:Hf, p; simpl.
  - right. split; [done|]. split; [done|]. split; [done|]. eauto.
  - left. split; [done|]. cbn [fst].
    by rewrite forallb_app, Hcalls; simpl; rewrite catch_not_created.
  - left. split; [done|]. cbn [fst].
    by rewrite forallb_app, Hcalls; simpl; rewrite catch_not_created.
  - destruct tagFirst; left; (split; [done|]); cbn [fst];
      by rewrite forallb_app, Hcalls; simpl; rewrite catch_not_created.
Qed.

(** Either the update handler writes nothing and answers with one call that
    is an error, or the checks are resolved and the store is the one
    [findByIdAndUpdate] leaves, the answer being the updated note or
    [next()]. *)
Lemma put_inv (isValid : value → bool) (db : store) (u id : jsstring)
      (body : gmap string value) (tagFirst : bool) :
  ((put isValid db u id body tagFirst).2 = db ∧
   ∃ c, (put isValid db u id body tagFirst).1 = [c] ∧ is_json c = false ∧ c ≠ next_) ∨
  (isValid (VStr id) = true ∧
   validateFolderId db (get body "folderId") u = resolved ∧
   validateTagIds db (tags_of body) u = Some resolved ∧
   put isValid db u id body tagFirst
   = (match (Note_findByIdAndUpdate db id (update_of body u)).1 with
      | Some result =>
          [json (populate (Note_findByIdAndUpdate db id (update_of body u)).2 result)]
      | None => [next_]
      end,
      (Note_findByIdAndUpdate db id (update_of body u)).2)).
Proof.
  unfold put.
  destruct (isValid (VStr id)) eqn:Hid; simpl; [|left; eauto].
  destruct (match get body "title" with VStr [] => true | _ => false end);
    [left; eauto|].
  destruct (_ && _); [left; eauto|].
  destruct (badIds isValid (tags_of body)) as [[|]|]; [left; eauto | | left; eauto].
  destruct (validateTagIds db (tags_of body) u) as [p|] eqn:Hp; [|left; eauto].
  assert (∀ r, ∃ c, [catch r] = [c] ∧ is_json c = false ∧ c ≠ next_) as Hcatch
      by (intros []; eexists; done).
  destruct (validateFolderId db (get body "folderId") u) eqn:Hf, p, tagFirst;
    simpl; try (left; split; [done | apply Hcatch]);
    right; (split; [done|]); (split; [done|]); (split; [done|]);
    unfold update_of; by destruct (List.find _ _).
Qed.

(** ** Lists of documents *)

Lemma find_app_none {A : Type} (f : A → bool) (l k : list A) :
  (∀ x, x ∈ l → f x = false) → List.find f (l ++ k) = List.find f k.
Proof.
  induction l as [|x l IH]; simpl; [done|]. intros H.
  rewrite (H x) by apply list_elem_of_here.
  apply IH. intros y Hy. by apply H, list_elem_of_further.
Qed.

Lemma remove_first_app_none {A : Type} (f : A → bool) (l k : list A) :
  (∀ x, x ∈ l → f x = false) → remove_first f (l ++ k) = l ++ remove_first f k.
Proof.
  induction l as [|x l IH]; simpl; [done|]. intros H.
  rewrite (H x) by apply list_elem_of_here.
  f_equal. apply IH. intros y Hy. by apply H, list_elem_of_further.
Qed.

Lemma remove_first_length {A : Type} (f : A → bool) (l : list A) (x : A) :
  List.find f l = Some x → S (length (remove_first f l)) = length l.
Proof.
  induction l as [|y l IH]; simpl; [done|].
  destruct (f y); [done|]. intros H. simpl. by rewrite IH.
Qed.

Lemma remove_first_elem {A : Type} (f : A → bool) (l : list A) (x : A) :
  x ∈ remove_first f l → x ∈ l.
Proof.
  induction l as [|y l IH]; simpl; [done|].
  destruct (f y); [apply list_elem_of_further|].
  intros [->|H]%elem_of_cons; [apply list_elem_of_here|].
  by apply list_elem_of_further, IH.
Qed.

Lemma update_first_elem {A : Type} (f : A → bool) (g : A → A) (l : list A) (x : A) :
  x ∈ update_first f g l → x ∈ l ∨ ∃ y, y ∈ l ∧ f y = true ∧ x = g y.
Proof.
  induction l as [|y l IH]; simpl; [by left|].
  destruct (f y) eqn:E.
  - intros [->|H]%elem_of_cons.
    + right. exists y. split; [apply list_elem_of_here | done].
    + left. by apply list_elem_of_further.
  - intros [->|H]%elem_of_cons; [left; apply list_elem_of_here|].
    destruct (IH H) as [H'|(z & Hz & Hfz & ->)].
    + left. by apply list_elem_of_further.
    + right. exists z. split; [by apply list_elem_of_further | done].
Qed.

Lemma update_first_other {A : Type} (f : A → bool) (g : A → A) (l : list A) (x : A) :
  f x = false → (∀ y, f y = true → f (g y) = true) →
  x ∈ update_first f g l ↔ x ∈ l.
Proof.
  intros Hx Hg. induction l as [|y l IH]; simpl; [done|].
  destruct (f y) eqn:E.
  - rewrite !elem_of_cons. split; intros [->|H]; auto.
    + rewrite (Hg y E) in Hx. discriminate.
    + congruence.
  - rewrite !elem_of_cons, IH. done.
Qed.

Lemma update_first_fmap {A B : Type} (f : A → bool) (g : A → A) (h : A → B)
      (l : list A) :
  (∀ x, h (g x) = h x) → h <$> update_first f g l = h <$> l.
Proof.
  intros Hh. induction l as [|y l IH]; simpl; [done|].
  destruct (f y); rewrite !fmap_cons; [by rewrite Hh | by rewrite IH].
Qed.

Lemma find_update_first {A : Type} (f f' : A → bool) (g : A → A) (l : list A) (x : A) :
  List.find f l = Some x →
  (∀ y, f' y = true → f y = true) → f' (g x) = true →
  List.find f' (update_first f g l) = Some (g x).
Proof.
  intros Hfind Hsub Hgx. induction l as [|y l IH]; simpl in *; [done|].
  destruct (f y) eqn:E.
  - injection Hfind as ->. simpl. by rewrite Hgx.
  - simpl. destruct (f' y) eqn:E'; [|auto].
    rewrite (Hsub y E') in E. discriminate.
Qed.

(** ** Creating *)

(** X12.  The create handler either leaves the store as it was and does not
    answer 201, or appends one note and answers 201 with it: the note has the
    id given by the store, a truthy title, the content, folderId and tags of
    the body, and the requester as its owner, whatever the body says.  The
    notes stored before are not touched. *)
Theorem create_appends_own_note
        (isValid : value → bool) (db : store) (u : jsstring)
        (body : gmap string value) (newId : jsstring) (tagFirst : bool) :
  ((post isValid db u body newId tagFirst).2 = db ∧
   ∀ c, c ∈ (post isValid db u body newId tagFirst).1 → is_created c = false) ∨
  (∃ n, (post isValid db u body newId tagFirst).2
        = mkStore (Note_ db ++ [n]) (Folder_ db) (Tag_ db)
        ∧ location_status_json newId 201 n
          ∈ (post isValid db u body newId tagFirst).1
        ∧ note_id n = newId ∧ userId n = u ∧ truthy (title n) = true
        ∧ title n = get body "title" ∧ content n = get body "content"
        ∧ folderId n = get body "folderId" ∧ tags n = tags_of body).
Proof.
  destruct (post_inv isValid db u body newId tagFirst)
    as [[Hdb Hcalls] | (Ht & _ & _ & calls & _ & ->)].
  - left. split; [done|]. intros c Hc.
    rewrite forallb_forall in Hcalls.
    apply list_elem_of_In, Hcalls in Hc. by apply negb_true_iff.
  - right. exists (note_of body newId u). simpl.
    split; [done|]. split; [|done].
    apply elem_of_app. right. apply list_elem_of_here.
Qed.

(** X13.  A note that has just been created is fetched by its owner under the
    id it was given, when that id is well formed and was not in use. *)
Theorem created_note_is_fetched
        (isValid : value → bool) (db : store) (u : jsstring)
        (body : gmap string value) (newId : jsstring) (tagFirst : bool)
        (c : call) :
  c ∈ (post isValid db u body newId tagFirst).1 → is_created c = true →
  isValid (VStr newId) = true →
  (∀ n, n ∈ Note_ db → note_id n ≠ newId) →
  get_id isValid (post isValid db u body newId tagFirst).2 u newId
  = ([json (populate (post isValid db u body newId tagFirst).2
                     (note_of body newId u))],
     (post isValid db u body newId tagFirst).2).
Proof.
  intros Hc Hcreated Hvalid Hfresh.
  destruct (post_inv isValid db u body newId tagFirst)
    as [[_ Hcalls] | (_ & _ & _ & calls & _ & ->)].
  { rewrite forallb_forall in Hcalls. apply list_elem_of_In, Hcalls in Hc.
    rewrite Hcreated in Hc. discriminate. }
  simpl. unfold get_id, Note_findOne. rewrite Hvalid. simpl.
  rewrite find_app_none.
  - simpl. by rewrite !bool_decide_eq_true_2.
  - intros n Hn. rewrite (bool_decide_eq_false_2 (note_id n = newId)); [done|].
    by apply Hfresh.
Qed.

Lemma created_note_is_fetched_witness :
  get_id ObjectId_isValid
         (post ObjectId_isValid Examples.db2 Examples.alice Examples.new_note
               Examples.note4 false).2 Examples.alice Examples.note4
  = ([json (populate (post ObjectId_isValid Examples.db2 Examples.alice
                           Examples.new_note Examples.note4 false).2
                     (note_of Examples.new_note Examples.note4 Examples.alice))],
     (post ObjectId_isValid Examples.db2 Examples.alice Examples.new_note
           Examples.note4 false).2).
Proof.
  apply (created_note_is_fetched ObjectId_isValid Examples.db2 Examples.alice
           Examples.new_note Examples.note4 false
           (location_status_json Examples.note4 201
              (note_of Examples.new_note Examples.note4 Examples.alice))).
  - apply list_elem_of_here.
  - reflexivity.
  - reflexivity.
  - intros n Hn. apply list_elem_of_In in Hn. simpl in Hn.
    destruct Hn as [<- | [<- | [<- | []]]]; vm_compute; discriminate.
Defined.

(** X14.  Deleting a note that has just been created, by its owner and under
    the id it was given, is answered with 204 and gives back the store as it
    was before the creation. *)
Theorem created_note_is_deleted
        (isValid : value → bool) (db : store) (u : jsstring)
        (body : gmap string value) (newId : jsstring) (tagFirst : bool)
        (c : call) :
  c ∈ (post isValid db u body newId tagFirst).1 → is_created c = true →
  isValid (VStr newId) = true →
  (∀ n, n ∈ Note_ db → note_id n ≠ newId) →
  delete_id isValid (post isValid db u body newId tagFirst).2 u newId
  = ([sendStatus 204], db).
Proof.
  intros Hc Hcreated Hvalid Hfresh.
  destruct (post_inv isValid db u body newId tagFirst)
    as [[_ Hcalls] | (_ & _ & _ & calls & _ & ->)].
  { rewrite forallb_forall in Hcalls. apply list_elem_of_In, Hcalls in Hc.
    rewrite Hcreated in Hc. discriminate. }
  assert (∀ n, n ∈ Note_ db →
               bool_decide (note_id n = newId) && bool_decide (userId n = u) = false)
    as Hnone.
  { intros n Hn. rewrite (bool_decide_eq_false_2 (note_id n = newId)); [done|].
    by apply Hfresh. }
  simpl. unfold delete_id, Note_findOneAndRemove. rewrite Hvalid. simpl.
  rewrite find_app_none, remove_first_app_none by done.
  simpl. rewrite !bool_decide_eq_true_2 by done. simpl.
  rewrite app_nil_r. by destruct db.
Qed.

Lemma created_note_is_deleted_witness :
  delete_id ObjectId_isValid
            (post ObjectId_isValid Examples.db2 Examples.alice Examples.new_note
                  Examples.note4 false).2 Examples.alice Examples.note4
  = ([sendStatus 204], Examples.db2).
Proof.
  apply (created_note_is_deleted ObjectId_isValid Examples.db2 Examples.alice
           Examples.new_note Examples.note4 false
           (location_status_json Examples.note4 201
              (note_of Examples.new_note Examples.note4 Examples.alice))).
  - apply list_elem_of_here.
  - reflexivity.
  - reflexivity.
  - intros n Hn. apply list_elem_of_In in Hn. simpl in Hn.
    destruct Hn as [<- | [<- | [<- | []]]]; vm_compute; discriminate.
Defined.

(** ** The two checks *)

Lemma validateFolderId_resolved (db : store) (v : value) (u : jsstring) :
  validateFolderId db v u = resolved ↔
  truthy v = false ∨
  ∃ f, f ∈ Folder_ db ∧ v = VStr (folder_id f) ∧ folder_userId f = u.
Proof.
  unfold validateFolderId, Folder_findOne. destruct (truthy v) eqn:Ht; simpl.
  - destruct (List.find _ _) as [f|] eqn:E.
    + split; [intros _; right | done].
      apply find_some in E as [Hin Hc]. apply andb_true_iff in Hc as [H1 H2].
      apply id_eq_true in H1. apply bool_decide_eq_true in H2.
      exists f. by rewrite list_elem_of_In.
    + split; [done|]. intros [? | (f & Hin & -> & Hu)]; [done|].
      apply list_elem_of_In in Hin.
      pose proof (find_none _ _ E f Hin) as Hc. simpl in Hc.
      rewrite !bool_decide_eq_true_2 in Hc by done. discriminate.
  - split; [by left | done].
Qed.

(** A list of strings has no repetition, or splits at one. *)
Lemma repetition (ss : list jsstring) :
  NoDup ss ∨ ∃ l1 x l2, ss = l1 ++ x :: l2 ∧ x ∈ l1 ++ l2.
Proof.
  induction ss as [|a ss IH]; [left; constructor|].
  destruct IH as [Hnd | (l1 & x & l2 & -> & Hx)].
  - destruct (decide (a ∈ ss)) as [Hin|Hnin].
    + right. exists [], a, ss. done.
    + left. by constructor.
  - right. exists (a :: l1), x, l2. split; [done|].
    simpl. by apply list_elem_of_further.
Qed.

Lemma Tag_find_all (db : store) (ss : list jsstring) (u : jsstring) :
  NoDup (tag_id <$> Tag_ db) → NoDup ss →
  (∀ s, s ∈ ss → ∃ t, t ∈ Tag_ db ∧ tag_id t = s ∧ tag_userId t = u) →
  length (Tag_find db (VStr <$> ss) u) = length ss.
Proof.
  intros Hdb Hss Hown.
  rewrite <- (length_fmap tag_id). apply Permutation_length, NoDup_Permutation.
  - by apply NoDup_fmap_filter.
  - done.
  - intros s. rewrite list_elem_of_fmap. split.
    + intros (t & -> & (_ & Ht & _)%Tag_find_elem).
      apply list_elem_of_fmap in Ht as (s' & [= ->] & Hs'). done.
    + intros Hs. destruct (Hown s Hs) as (t & Ht & <- & Hu).
      exists t. split; [done|]. apply Tag_find_elem.
      split; [done|]. split; [|done]. apply list_elem_of_fmap. eauto.
Qed.

Lemma tag_check_checked (db : store) (l : list value) (u : jsstring) :
  NoDup (tag_id <$> Tag_ db) →
  validateTagIds db (VArr l) u = Some resolved →
  ∃ ss, l = VStr <$> ss ∧ NoDup ss ∧
        ∀ s, s ∈ ss → ∃ t, t ∈ Tag_ db ∧ tag_id t = s ∧ tag_userId t = u.
Proof.
  intros Hdb Hres.
  assert (∀ v, v ∈ l → ∃ t, t ∈ Tag_ db ∧ v = VStr (tag_id t) ∧ tag_userId t = u)
    as Hown.
  { intros v Hv.
    destruct (List.find (λ t, id_eq v (tag_id t) && bool_decide (tag_userId t = u))
                        (Tag_ db)) as [t|] eqn:E.
    - apply find_some in E as [Hin Hc]. apply andb_true_iff in Hc as [H1 H2].
      apply id_eq_true in H1. apply bool_decide_eq_true in H2.
      exists t. by rewrite list_elem_of_In.
    - exfalso.
      assert (length (Tag_find db l u) < length l) as Hlt.
      { apply (Tag_find_unmatched db l v u Hdb Hv). intros t Ht Hu.
        apply list_elem_of_In in Ht. pose proof (find_none _ _ E t Ht) as Hc.
        simpl in Hc. by rewrite (bool_decide_eq_true_2 _ Hu), andb_true_r in Hc. }
      rewrite (validateTagIds_shorter db l u Hlt) in Hres. discriminate. }
  assert (∃ ss, l = VStr <$> ss) as [ss ->].
  { clear Hres. induction l as [|v l IH]; [by exists []|].
    destruct IH as [ss ->]; [intros w Hw; by apply Hown, list_elem_of_further|].
    destruct (Hown v) as (t & _ & -> & _); [apply list_elem_of_here|].
    by exists (tag_id t :: ss). }
  exists ss. split; [done|]. split.
  - destruct (repetition ss) as [Hnd | (l1 & x & l2 & -> & Hx)]; [done|].
    exfalso.
    assert (length (Tag_find db (VStr <$> (l1 ++ x :: l2)) u)
            < length (VStr <$> (l1 ++ x :: l2))) as Hlt.
    { rewrite fmap_app, fmap_cons. apply Tag_find_repeated; [done|].
      rewrite <- fmap_app. apply list_elem_of_fmap. eauto. }
    rewrite (validateTagIds_shorter db _ u Hlt) in Hres. discriminate.
  - intros s Hs. destruct (Hown (VStr s)) as (t & Ht & [= ->] & Hu);
      [apply list_elem_of_fmap; eauto | eauto].
Qed.

Lemma fmap_VStr_inj (ss ss' : list jsstring) :
  VStr <$> ss = VStr <$> ss' → ss = ss'.
Proof.
  revert ss'. induction ss as [|s ss IH]; intros [|s' ss'] H; try done.
  rewrite !fmap_cons in H. injection H as -> H. f_equal. by apply IH.
Qed.

(** X15.  With distinct ids in the tag collection, the tag check accepts an
    array of ids, written as the store writes them, exactly when it is empty
    or lists, without repetition, ids of tags of the requester; with another
    user's tag, an unknown id or the same id twice in it, it is rejected with
    ['InvalidTag']. *)
Theorem tag_check_accepts_iff (db : store) (ss : list jsstring) (u : jsstring) :
  NoDup (tag_id <$> Tag_ db) →
  (∀ s, s ∈ ss → is_stored_id s = true) →
  (validateTagIds db (VArr (VStr <$> ss)) u = Some resolved ↔
   NoDup ss ∧
   ∀ s, s ∈ ss → ∃ t, t ∈ Tag_ db ∧ tag_id t = s ∧ tag_userId t = u) ∧
  (validateTagIds db (VArr (VStr <$> ss)) u = Some resolved ∨
   validateTagIds db (VArr (VStr <$> ss)) u = Some (rejected InvalidTag)).
Proof.
  intros Hdb _. split; [|apply validateTagIds_array]. split.
  - intros Hres.
    destruct (tag_check_checked db _ u Hdb Hres) as (ss' & Heq & Hnd & Hown).
    apply fmap_VStr_inj in Heq. by subst ss'.
  - intros (Hnd & Hown). unfold validateTagIds.
    rewrite (Tag_find_all db ss u Hdb Hnd Hown), length_fmap, Nat.eqb_refl. simpl.
    by destruct (length ss =? 0).
Qed.

Lemma tag_check_accepts_iff_witness :
  (validateTagIds Examples.db2 (VArr (VStr <$> [Examples.tag1; Examples.tag2]))
                  Examples.alice = Some resolved ↔
   NoDup [Examples.tag1; Examples.tag2] ∧
   ∀ s, s ∈ [Examples.tag1; Examples.tag2] →
        ∃ t, t ∈ Tag_ Examples.db2 ∧ tag_id t = s ∧ tag_userId t = Examples.alice) ∧
  (validateTagIds Examples.db2 (VArr (VStr <$> [Examples.tag1; Examples.tag2]))
                  Examples.alice = Some resolved ∨
   validateTagIds Examples.db2 (VArr (VStr <$> [Examples.tag1; Examples.tag2]))
                  Examples.alice = Some (rejected InvalidTag)).
Proof.
  apply (tag_check_accepts_iff Examples.db2 [Examples.tag1; Examples.tag2]
           Examples.alice).
  - exact sample_tag_ids_distinct.
  - intros s Hs. apply list_elem_of_In in Hs. simpl in Hs.
    destruct Hs as [<- | [<- | []]]; reflexivity.
Defined.

(** ** References stay within one user *)

Lemma references_owned_same (db db' : store) (n : Note) :
  Folder_ db' = Folder_ db → Tag_ db' = Tag_ db →
  references_owned db n → references_owned db' n.
Proof. unfold references_owned. by intros -> ->. Qed.

(** A note made of a body that passed both checks refers to a folder and to
    tags of the requester. *)
Lemma checked_references_owned (db : store) (u id : jsstring)
      (title content folderId tags : value) :
  NoDup (tag_id <$> Tag_ db) →
  validateFolderId db folderId u = resolved →
  validateTagIds db tags u = Some resolved →
  references_owned db (mkNote id title content folderId tags u).
Proof.
  intros Hdb Hf Ht. split; simpl.
  - intros Htruthy. apply validateFolderId_resolved in Hf as [Hf|Hf]; [congruence|done].
  - intros l v -> Hv.
    destruct (tag_check_checked db l u Hdb Ht) as (ss & -> & _ & Hown).
    apply list_elem_of_fmap in Hv as (s & -> & Hs).
    destruct (Hown s Hs) as (t & Hin & <- & Hu). eauto.
Qed.

(** X16.  Creating keeps the references within one user: if every note of
    the store refers to a folder and to tags of its own owner, so does every
    note after the create handler has run, whatever the request (the tag
    collection having distinct ids). *)
Theorem create_keeps_references_owned
        (isValid : value → bool) (db : store) (u : jsstring)
        (body : gmap string value) (newId : jsstring) (tagFirst : bool) :
  NoDup (tag_id <$> Tag_ db) →
  consistent db →
  consistent (post isValid db u body newId tagFirst).2.
Proof.
  intros Hdb Hcons.
  destruct (post_inv isValid db u body newId tagFirst)
    as [[-> _] | (_ & Hf & Ht & calls & _ & ->)]; [done|].
  intros n Hn. simpl in Hn.
  apply elem_of_app in Hn as [Hn | ->%list_elem_of_singleton].
  - by apply (references_owned_same db), Hcons.
  - apply (references_owned_same db); [done | done |].
    by apply checked_references_owned.
Qed.

Lemma sample_db2_consistent : consistent Examples.db2.
Proof.
  intros n Hn. apply list_elem_of_In in Hn. simpl in Hn.
  destruct Hn as [<- | [<- | [<- | []]]]; (split; simpl).
  - intros _. eexists. split; [apply list_elem_of_here | done].
  - intros l v [= <-] ->%list_elem_of_singleton.
    eexists. split; [apply list_elem_of_here | done].
  - intros _. eexists.
    split; [apply list_elem_of_further, list_elem_of_here | done].
  - intros l v [= <-] ->%list_elem_of_singleton.
    eexists. split; [apply list_elem_of_further, list_elem_of_here | done].
  - discriminate.
  - intros l v [= <-] []%elem_of_nil.
Qed.

Lemma create_keeps_references_owned_witness :
  consistent (post ObjectId_isValid Examples.db2 Examples.alice Examples.new_note
                   Examples.note4 false).2.
Proof.
  apply (create_keeps_references_owned ObjectId_isValid Examples.db2 Examples.alice
           Examples.new_note Examples.note4 false).
  - exact sample_tag_ids_distinct.
  - exact sample_db2_consistent.
Defined.

Lemma delete_id_inv (isValid : value → bool) (db : store) (u id : jsstring) :
  Folder_ (delete_id isValid db u id).2 = Folder_ db ∧
  Tag_ (delete_id isValid db u id).2 = Tag_ db ∧
  ∀ n, n ∈ Note_ (delete_id isValid db u id).2 → n ∈ Note_ db.
Proof.
  unfold delete_id. destruct (negb _); [done|].
  unfold Note_findOneAndRemove. destruct (List.find _ _); simpl;
    (split; [done|]); (split; [done|]); intros m; apply remove_first_elem.
Qed.

(** X17.  Updating and deleting keep them as well: a note that is updated
    gets the requester as its owner together with a folder and tags that
    passed the checks for the requester, and deleting only takes a note away. *)
Theorem update_keeps_references_owned
        (isValid : value → bool) (db : store) (u id : jsstring)
        (body : gmap string value) (tagFirst : bool) :
  NoDup (tag_id <$> Tag_ db) →
  consistent db →
  consistent (put isValid db u id body tagFirst).2 ∧
  consistent (delete_id isValid db u id).2.
Proof.
  intros Hdb Hcons. split.
  - destruct (put_inv isValid db u id body tagFirst)
      as [[-> _] | (_ & Hf & Ht & ->)]; [done|].
    intros n Hn. simpl in Hn.
    apply update_first_elem in Hn as [Hn | (n0 & _ & _ & ->)].
    + by apply (references_owned_same db), Hcons.
    + apply (references_owned_same db); [done | done |].
      by apply checked_references_owned.
  - destruct (delete_id_inv isValid db u id) as (HF & HT & Hsub).
    intros n Hn. apply (references_owned_same db); [done | done |].
    by apply Hcons, Hsub.
Qed.

Lemma update_keeps_references_owned_witness :
  consistent (put ObjectId_isValid Examples.db2 Examples.mallory Examples.note1
                  Examples.retitle false).2 ∧
  consistent (delete_id ObjectId_isValid Examples.db2 Examples.mallory
                        Examples.note1).2.
Proof.
  apply (update_keeps_references_owned ObjectId_isValid Examples.db2
           Examples.mallory Examples.note1 Examples.retitle false).
  - exact sample_tag_ids_distinct.
  - exact sample_db2_consistent.
Defined.

(** ** Updating *)

(** X18.  The update handler never creates or deletes a note, and never
    touches a note under another id: the ids of the store are the same, in
    the same order, and a document with another id is in the store
    afterwards exactly when it was before.  Folders and tags are as before. *)
Theorem update_keeps_the_other_notes
        (isValid : value → bool) (db : store) (u id : jsstring)
        (body : gmap string value) (tagFirst : bool) :
  note_id <$> Note_ (put isValid db u id body tagFirst).2 = note_id <$> Note_ db ∧
  (∀ n, note_id n ≠ id →
        n ∈ Note_ (put isValid db u id body tagFirst).2 ↔ n ∈ Note_ db) ∧
  Folder_ (put isValid db u id body tagFirst).2 = Folder_ db ∧
  Tag_ (put isValid db u id body tagFirst).2 = Tag_ db.
Proof.
  destruct (put_inv isValid db u id body tagFirst)
    as [[-> _] | (_ & _ & _ & ->)]; [done|].
  simpl. split; [|split; [|done]].
  - by apply update_first_fmap.
  - intros n Hn. apply update_first_other; [|done].
    by apply bool_decide_eq_false_2.
Qed.

(** X19.  When the update handler answers with a note, that note has the id
    asked for, the title, content, folderId and tags of the body and the
    requester as its owner, whoever owned it before; it is in the store, and
    the requester then fetches it under that id. *)
Theorem updated_note_is_the_requesters
        (isValid : value → bool) (db : store) (u id : jsstring)
        (body : gmap string value) (tagFirst : bool) (result : populated) :
  json result ∈ (put isValid db u id body tagFirst).1 →
  (∃ n, n ∈ Note_ db ∧ note_id n = id) ∧
  doc result = mkNote id (get body "title") (get body "content")
                      (get body "folderId") (tags_of body) u ∧
  doc result ∈ Note_ (put isValid db u id body tagFirst).2 ∧
  get_id isValid (put isValid db u id body tagFirst).2 u id
  = ([json result], (put isValid db u id body tagFirst).2).
Proof.
  intros Hjson.
  destruct (put_inv isValid db u id body tagFirst)
    as [[_ (c & Hc & Hnj & _)] | (Hid & _ & _ & Hput)].
  { rewrite Hc in Hjson. apply list_elem_of_singleton in Hjson. by subst c. }
  rewrite Hput in Hjson |- *. simpl in Hjson |- *.
  destruct (List.find (λ n, bool_decide (note_id n = id)) (Note_ db)) as [n|] eqn:E;
    simpl in Hjson; apply list_elem_of_singleton in Hjson; [|discriminate].
  injection Hjson as ->.
  pose proof E as E'. apply find_some in E' as [Hin Hn].
  apply bool_decide_eq_true in Hn. apply list_elem_of_In in Hin.
  split; [eauto|]. simpl.
  split; [unfold set_fields, update_of; simpl; by rewrite Hn|].
  assert (List.find (λ n, bool_decide (note_id n = id) && bool_decide (userId n = u))
            (update_first (λ n, bool_decide (note_id n = id))
                          (set_fields (update_of body u)) (Note_ db))
          = Some (set_fields (update_of body u) n)) as Hfind.
  { apply (find_update_first _ _ _ _ _ E).
    - by intros y [? _]%andb_true_iff.
    - simpl. by rewrite !bool_decide_eq_true_2. }
  split.
  - apply find_some in Hfind as [Hin' _]. by apply list_elem_of_In.
  - unfold get_id, Note_findOne. rewrite Hid. simpl. by rewrite Hfind.
Qed.

Lemma updated_note_is_the_requesters_witness :
  (∃ n, n ∈ Note_ Examples.db2 ∧ note_id n = Examples.note1) ∧
  doc (populate (put ObjectId_isValid Examples.db2 Examples.mallory Examples.note1
                     Examples.retitle false).2
                (mkNote Examples.note1 (VStr (lit "taken over")) VUndefined
                        VUndefined (VArr []) Examples.mallory))
  = mkNote Examples.note1 (get Examples.retitle "title")
           (get Examples.retitle "content") (get Examples.retitle "folderId")
           (tags_of Examples.retitle) Examples.mallory ∧
  doc (populate (put ObjectId_isValid Examples.db2 Examples.mallory Examples.note1
                     Examples.retitle false).2
                (mkNote Examples.note1 (VStr (lit "taken over")) VUndefined
                        VUndefined (VArr []) Examples.mallory))
    ∈ Note_ (put ObjectId_isValid Examples.db2 Examples.mallory Examples.note1
                 Examples.retitle false).2 ∧
  get_id ObjectId_isValid
         (put ObjectId_isValid Examples.db2 Examples.mallory Examples.note1
              Examples.retitle false).2 Examples.mallory Examples.note1
  = ([json (populate (put ObjectId_isValid Examples.db2 Examples.mallory
                          Examples.note1 Examples.retitle false).2
                     (mkNote Examples.note1 (VStr (lit "taken over")) VUndefined
                             VUndefined (VArr []) Examples.mallory))],
     (put ObjectId_isValid Examples.db2 Examples.mallory Examples.note1
          Examples.retitle false).2).
Proof.
  apply (updated_note_is_the_requesters ObjectId_isValid Examples.db2
           Examples.mallory Examples.note1 Examples.retitle false).
  apply list_elem_of_here.
Defined.

(** ** Fetching and deleting *)

Lemma find_owned (db : store) (u id : jsstring) :
  (∃ n, List.find (λ n, bool_decide (note_id n = id) && bool_decide (userId n = u))
                  (Note_ db) = Some n) ↔
  ∃ n, n ∈ Note_ db ∧ note_id n = id ∧ userId n = u.
Proof.
  split.
  - intros (n & [Hin Hc]%find_some). apply andb_true_iff in Hc as [H1 H2].
    apply bool_decide_eq_true in H1, H2. exists n. by rewrite list_elem_of_In.
  - intros (n & Hin & H1 & H2).
    destruct (List.find _ (Note_ db)) as [m|] eqn:E; [eauto|].
    apply list_elem_of_In in Hin. pose proof (find_none _ _ E n Hin) as Hc.
    simpl in Hc. rewrite !bool_decide_eq_true_2 in Hc by done. discriminate.
Qed.

(** X20.  Fetching answers with a note exactly when the id is well formed
    and the requester owns a note under it; the note answered is then one of
    the store, with that id and that owner, and the store is left as it was. *)
Theorem fetch_answers_iff
        (isValid : value → bool) (db : store) (u id : jsstring) :
  (get_id isValid db u id).2 = db ∧
  ((∃ result, (get_id isValid db u id).1 = [json result]) ↔
   isValid (VStr id) = true ∧ ∃ n, n ∈ Note_ db ∧ note_id n = id ∧ userId n = u) ∧
  (∀ result, (get_id isValid db u id).1 = [json result] →
             doc result ∈ Note_ db ∧ note_id (doc result) = id
             ∧ userId (doc result) = u).
Proof.
  split; [|split].
  - unfold get_id. destruct (negb _); [done|]. by destruct (Note_findOne _ _ _).
  - rewrite <- find_owned. unfold get_id, Note_findOne.
    destruct (isValid (VStr id)); simpl.
    + destruct (List.find _ _) as [n|]; simpl.
      * split; [eauto | intros _; eauto].
      * split; [by intros [? ?] | by intros [_ [? ?]]].
    + split; [by intros [? ?] | by intros [? _]].
  - intros result H.
    destruct (get_id_owner isValid db u id result) as (H1 & H2 & H3); [|done].
    rewrite H. apply list_elem_of_here.
Qed.

(** X21.  Deleting answers 204 exactly when the id is well formed and the
    requester owns a note under it, and then one note is gone from the store;
    otherwise the store is left as it was.  The notes left were all there
    before, and folders and tags are not touched. *)
Theorem delete_answers_iff
        (isValid : value → bool) (db : store) (u id : jsstring) :
  ((delete_id isValid db u id).1 = [sendStatus 204] ↔
   isValid (VStr id) = true ∧ ∃ n, n ∈ Note_ db ∧ note_id n = id ∧ userId n = u) ∧
  ((delete_id isValid db u id).1 = [sendStatus 204] →
   S (length (Note_ (delete_id isValid db u id).2)) = length (Note_ db)) ∧
  ((delete_id isValid db u id).1 ≠ [sendStatus 204] →
   (delete_id isValid db u id).2 = db) ∧
  Folder_ (delete_id isValid db u id).2 = Folder_ db ∧
  Tag_ (delete_id isValid db u id).2 = Tag_ db ∧
  (∀ n, n ∈ Note_ (delete_id isValid db u id).2 → n ∈ Note_ db).
Proof.
  split; [|split; [|split]]; [| | |apply delete_id_inv].
  - rewrite <- find_owned. unfold delete_id, Note_findOneAndRemove.
    destruct (isValid (VStr id)); simpl.
    + destruct (List.find _ _) as [n|]; simpl.
      * split; [eauto | done].
      * split; [done | by intros [_ [? ?]]].
    + split; [done | by intros [? _]].
  - unfold delete_id, Note_findOneAndRemove. destruct (negb _); [done|].
    destruct (List.find _ _) as [n|] eqn:E; simpl; [|done].
    intros _. by apply (remove_first_length _ _ n).
  - unfold delete_id, Note_findOneAndRemove. destruct (negb _); [done|].
    destruct (List.find _ _) as [n|] eqn:E; simpl; [done|].
    intros _. rewrite remove_first_none; [by destruct db|].
    intros x Hx. apply list_elem_of_In in Hx. apply (find_none _ _ E x Hx).
Qed.

Lemma not_owned_not_found (isValid : value → bool) (db : store) (u id : jsstring) :
  not_owned db u id → isValid (VStr id) = true →
  get_id isValid db u id = ([next_], db) ∧ delete_id isValid db u id = ([next_], db).
Proof.
  intros Hno Hid. pose proof (not_owned_cond db u id Hno) as Hc.
  unfold get_id, delete_id, Note_findOne, Note_findOneAndRemove.
  rewrite Hid, (find_none_intro _ _ Hc), (remove_first_none _ _ Hc).
  by destruct db.
Qed.

(** X22.  With distinct ids in the note collection, a note that has been
    deleted is gone for its owner: fetching it and deleting it again are both
    answered with the not-found [next()]. *)
Theorem deleted_note_is_not_found
        (isValid : value → bool) (db : store) (u id : jsstring) :
  NoDup (note_id <$> Note_ db) →
  isValid (VStr id) = true →
  get_id isValid (delete_id isValid db u id).2 u id
  = ([next_], (delete_id isValid db u id).2) ∧
  delete_id isValid (delete_id isValid db u id).2 u id
  = ([next_], (delete_id isValid db u id).2).
Proof.
  intros Hnd Hid.
  assert (not_owned (delete_id isValid db u id).2 u id) as Hno.
  { unfold delete_id, Note_findOneAndRemove. rewrite Hid. simpl.
    assert (not_owned (mkStore (remove_first
              (λ n, bool_decide (note_id n = id) && bool_decide (userId n = u))
              (Note_ db)) (Folder_ db) (Tag_ db)) u id) as H.
    { unfold not_owned. simpl.
      induction (Note_ db) as [|x l IH]; simpl; [intros n Hn; by apply elem_of_nil in Hn|].
      apply NoDup_cons in Hnd as [Hx Hnd].
      destruct (bool_decide (note_id x = id) && bool_decide (userId x = u)) eqn:E.
      - apply andb_true_iff in E as [E _]. apply bool_decide_eq_true in E.
        intros n Hn Hnid. exfalso. apply Hx, list_elem_of_fmap.
        exists n. split; [congruence | done].
      - intros n [->|Hn]%elem_of_cons Hnid; [|by apply IH].
        rewrite (bool_decide_eq_true_2 _ Hnid) in E. simpl in E.
        by apply bool_decide_eq_false in E. }
    by destruct (List.find _ _). }
  by apply not_owned_not_found.
Qed.

Lemma deleted_note_is_not_found_witness :
  get_id ObjectId_isValid
         (delete_id ObjectId_isValid Examples.db2 Examples.alice Examples.note1).2
         Examples.alice Examples.note1
  = ([next_],
     (delete_id ObjectId_isValid Examples.db2 Examples.alice Examples.note1).2) ∧
  delete_id ObjectId_isValid
            (delete_id ObjectId_isValid Examples.db2 Examples.alice Examples.note1).2
            Examples.alice Examples.note1
  = ([next_],
     (delete_id ObjectId_isValid Examples.db2 Examples.alice Examples.note1).2).
Proof.
  apply (deleted_note_is_not_found ObjectId_isValid Examples.db2 Examples.alice
           Examples.note1).
  - vm_compute. repeat constructor; set_solver.
  - reflexivity.
Defined.

(** ** How often a handler answers *)

(** X23.  Fetching, deleting and updating call [res] or [next] exactly once.
    Creating does so once after one [next(err)], with the 400 error for the
    tags, for each element of the tags array that is not valid, once title and
    folderId have passed their checks; so it answers more than once exactly
    when the array has such an element. *)
Theorem handlers_answer_once
        (isValid : value → bool) (db : store) (u id : jsstring)
        (body : gmap string value) (newId : jsstring) (tagFirst : bool) :
  length (get_id isValid db u id).1 = 1 ∧
  length (delete_id isValid db u id).1 = 1 ∧
  length (put isValid db u id body tagFirst).1 = 1 ∧
  ∃ c, (post isValid db u body newId tagFirst).1
       = replicate
           (if negb (truthy (get body "title"))
               || (truthy (get body "folderId") && negb (isValid (get body "folderId")))
            then 0
            else match tags_of body with
                 | VArr l => length (List.filter (λ tag, negb (isValid tag)) l)
                 | _ => 0
                 end)
           (next_err (mkError 400 The_tags_id_is_not_valid))
         ++ [c].
Proof.
  split; [|split; [|split]].
  - unfold get_id. destruct (negb _); [done|]. by destruct (Note_findOne _ _ _).
  - unfold delete_id. destruct (negb _); [done|].
    unfold Note_findOneAndRemove. by destruct (List.find _ _).
  - destruct (put_inv isValid db u id body tagFirst)
      as [[_ (c & -> & _)] | (_ & _ & _ & ->)]; [done|].
    simpl. by destruct (List.find _ _).
  - unfold post.
    destruct (negb (truthy (get body "title"))); simpl; [by eexists|].
    destruct (_ && _); [by eexists|].
    destruct (forEach_tag isValid (tags_of body)) as [calls|] eqn:Hc.
    + assert (calls = replicate
                (match tags_of body with
                 | VArr l => length (List.filter (λ tag, negb (isValid tag)) l)
                 | _ => 0
                 end) (next_err (mkError 400 The_tags_id_is_not_valid))) as ->.
      { rewrite (forEach_tag_not_created _ _ _ Hc) at 1. f_equal.
        unfold forEach_tag in Hc. destruct (tags_of body);
          try (destruct (truthy _); [discriminate|]); injection Hc as <-;
          try done.
        by rewrite length_map. }
      destruct (validateTagIds _ _ _) as [p|]; [|by eexists].
      destruct (Promise_all _ _ _); by eexists.
    + unfold forEach_tag in Hc. destruct (tags_of body); try discriminate;
        by eexists.
Qed.

(** ** The folder check, and updating a note that is not there *)

(** X24.  On a folderId that is falsy (absent, null, false, 0 or the empty
    string) or an id written as the store writes it, the folder check is
    resolved exactly when the folderId is falsy or is the id of a folder of
    the requester, and it is rejected with ['InvalidFolder'] otherwise. *)
Theorem folder_check_accepts_iff (db : store) (folderId : value) (u : jsstring) :
  truthy folderId = false ∨ (∃ s, folderId = VStr s ∧ is_stored_id s = true) →
  (validateFolderId db folderId u = resolved ↔
   truthy folderId = false ∨
   ∃ f, f ∈ Folder_ db ∧ folderId = VStr (folder_id f) ∧ folder_userId f = u) ∧
  (validateFolderId db folderId u ≠ resolved →
   validateFolderId db folderId u = rejected InvalidFolder).
Proof.
  intros _. split; [apply validateFolderId_resolved|].
  by destruct (validateFolderId_cases db folderId u) as [-> | ->].
Qed.

Lemma folder_check_accepts_iff_witness :
  (validateFolderId Examples.db2 (VStr Examples.folder2) Examples.alice = resolved ↔
   truthy (VStr Examples.folder2) = false ∨
   ∃ f, f ∈ Folder_ Examples.db2 ∧ VStr Examples.folder2 = VStr (folder_id f)
        ∧ folder_userId f = Examples.alice) ∧
  (validateFolderId Examples.db2 (VStr Examples.folder2) Examples.alice ≠ resolved →
   validateFolderId Examples.db2 (VStr Examples.folder2) Examples.alice
   = rejected InvalidFolder).
Proof.
  apply (folder_check_accepts_iff Examples.db2 (VStr Examples.folder2)
           Examples.alice).
  right. exists Examples.folder2. split; reflexivity.
Defined.

Lemma update_first_none {A : Type} (f : A → bool) (g : A → A) (l : list A) :
  (∀ x, x ∈ l → f x = false) → update_first f g l = l.
Proof.
  induction l as [|x l IH]; simpl; [done|]. intros H.
  rewrite (H x) by apply list_elem_of_here.
  f_equal. apply IH. intros y Hy. by apply H, list_elem_of_further.
Qed.

(** X25.  Updating under an id that no note has writes nothing, whatever the
    body: the store is left as it was and the answer is one call that is no
    note, the not-found [next()] or an error. *)
Theorem update_of_missing_note
        (isValid : value → bool) (db : store) (u id : jsstring)
        (body : gmap string value) (tagFirst : bool) :
  (∀ n, n ∈ Note_ db → note_id n ≠ id) →
  (put isValid db u id body tagFirst).2 = db ∧
  ∃ c, (put isValid db u id body tagFirst).1 = [c] ∧ is_json c = false.
Proof.
  intros Hnone.
  destruct (put_inv isValid db u id body tagFirst)
    as [[-> (c & -> & Hc & _)] | (_ & _ & _ & ->)]; [eauto|].
  assert (∀ n, n ∈ Note_ db → bool_decide (note_id n = id) = false) as Hc.
  { intros n Hn. apply bool_decide_eq_false_2. by apply Hnone. }
  simpl. rewrite (find_none_intro _ _ Hc), (update_first_none _ _ _ Hc). simpl.
  split; [by destruct db | eauto].
Qed.

Lemma update_of_missing_note_witness :
  (put ObjectId_isValid Examples.db2 Examples.alice Examples.note4
       Examples.retitle false).2 = Examples.db2 ∧
  ∃ c, (put ObjectId_isValid Examples.db2 Examples.alice Examples.note4
            Examples.retitle false).1 = [c] ∧ is_json c = false.
Proof.
  apply (update_of_missing_note ObjectId_isValid Examples.db2 Examples.alice
           Examples.note4 Examples.retitle false).
  intros n Hn. apply list_elem_of_In in Hn. simpl in Hn.
  destruct Hn as [<- | [<- | [<- | []]]]; vm_compute; discriminate.
Defined.

End NotesFacts.
